(** * Galaxy generator (src/script.js): a shallow embedding and its properties

    The script keeps three module-level variables ([geometry], [material],
    [points]), a scene, and a mutable [parameters] object; [generateGalaxy]
    rebuilds the point cloud from the parameters and from successive calls of
    [Math.random].

    The rest of the script (the sizes and the resize listener, the camera, the
    renderer and the animation loop [tick]) is modelled as a page that reacts
    to the events of its host.

    JavaScript Numbers are kept abstract behind the interface [JSNumber], so
    that everything that only depends on the shape of the computation holds for
    any arithmetic.  Two instances are given: the real numbers (exact
    operations on Numbers and an order-keeping conversion to single precision
    for the stores, the reading in which bounds are stated) and IEEE 754
    binary64 with binary32 stores (what the engines compute). *)

From Stdlib Require Import Reals Lra Lia Floats Uint63 Ascii String ZArith.
From stdpp Require Import base list.

Set Default Proof Using "Type".

(** ** Numbers *)

(** The operations of JavaScript Numbers that the script uses. *)
Class JSNumber (num : Type) : Type := {
  (** a non-negative integer (a loop index, a literal such as [1] or [2]) *)
  of_nat : nat -> num;
  (** the literal [0.5] *)
  half : num;
  (** unary minus *)
  neg : num -> num;
  add : num -> num -> num;
  sub : num -> num -> num;
  mul : num -> num -> num;
  div : num -> num -> num;
  (** the comparison [x < y] *)
  lt : num -> num -> bool;
  Math_PI : num;
  Math_cos : num -> num;
  Math_sin : num -> num;
  Math_pow : num -> num -> num;
  (** the conversion applied when a Number is stored in a [Float32Array] *)
  toFloat32 : num -> num
}.

Declare Scope js_scope.
Delimit Scope js_scope with js.
Infix "+" := add : js_scope.
Infix "-" := sub : js_scope.
Infix "*" := mul : js_scope.
Infix "/" := div : js_scope.
Notation "- x" := (neg x) : js_scope.
Infix "<?" := lt : js_scope.

(** ** Colors (three.js [Color]) *)

Record Color (num : Type) : Type := mkColor { r : num; g : num; b : num }.
Arguments mkColor {num} _ _ _.
Arguments r {num} _.
Arguments g {num} _.
Arguments b {num} _.

Section ColorOps.
Context {num : Type} {JS : JSNumber num}.
Local Open Scope js_scope.

(** [color.clone()]: a new object with the same channels. *)
Definition clone (c : Color num) : Color num := mkColor (r c) (g c) (b c).

(** Modelled from the spec: [Color.lerp] belongs to three.js and is not part
    of the repository; it is the linear interpolation of section 4.1 step 6,
    channel by channel: [this.c += (color.c - this.c) * alpha]. *)
Definition lerp (this color : Color num) (alpha : num) : Color num :=
  mkColor (r this + (r color - r this) * alpha)
          (g this + (g color - g this) * alpha)
          (b this + (b color - b this) * alpha).
End ColorOps.

(** ** Parameters *)

(** The [parameters] object.  [count] and [branches] are integers (the control
    panel moves them in whole steps); the colors are the strings handed to the
    [THREE.Color] constructor. *)
Record Parameters (num : Type) : Type := mkParameters {
  count : nat;
  size : num;
  radius : num;
  branches : nat;
  spin : num;
  randomness : num;
  randomnessPower : num;
  insideColor : string;
  outsideColor : string
}.
Arguments mkParameters {num} _ _ _ _ _ _ _ _ _.
Arguments count {num} _.
Arguments size {num} _.
Arguments radius {num} _.
Arguments branches {num} _.
Arguments spin {num} _.
Arguments randomness {num} _.
Arguments randomnessPower {num} _.
Arguments insideColor {num} _.
Arguments outsideColor {num} _.

(** ** The random source *)

(** A computation that calls [Math.random]: the state is the number of calls
    made so far. *)
Definition Rand (A : Type) : Type := nat -> A * nat.

Definition ret {A : Type} (a : A) : Rand A := fun k => (a, k).

Definition bind {A B : Type} (c : Rand A) (f : A -> Rand B) : Rand B :=
  fun k => let (a, k') := c k in f a k'.

Notation "x <~ c ;; k" := (bind c (fun x => k))
  (at level 100, c at next level, right associativity).

(** ** The generator *)

Section Generator.
Context {num : Type} {JS : JSNumber num}.
Local Open Scope js_scope.

(** The values returned by the successive calls of [Math.random]. *)
Variable rnd : nat -> num.

(** The [THREE.Color] constructor on a color string. *)
Variable THREE_Color : string -> Color num.

Definition Math_random : Rand num := fun k => (rnd k, S k).

(** [i % b] on integral Numbers; [i % 0] is NaN, which is also the value of
    [0 / 0]. *)
Definition rem (i b : nat) : num :=
  match b with
  | O => of_nat 0 / of_nat 0
  | S _ => of_nat (i mod b)
  end.

(** Line 65: [Math.random() * parameters.radius], from the draw [u]. *)
Definition starRadius (p : Parameters num) (u : num) : num := u * radius p.

(** Line 68. *)
Definition spinAngle (p : Parameters num) (radius_i : num) : num :=
  radius_i * spin p.

(** Line 71. *)
Definition branchAngle (p : Parameters num) (i : nat) : num :=
  rem i (branches p) / of_nat (branches p) * Math_PI * of_nat 2.

(** The sign [(Math.random() < 0.5 ? 1 : -1)], from the draw [s]. *)
Definition randomSign (s : num) : num :=
  if s <? half then of_nat 1 else - of_nat 1.

(** Lines 74 to 76, which repeat one expression: the jitter of an axis from
    its two draws [u] and [s]. *)
Definition jitter (p : Parameters num) (u s radius_i : num) : num :=
  Math_pow u (randomnessPower p) * randomSign s * randomness p * radius_i.

Definition randomAxis (p : Parameters num) (radius_i : num) : Rand num :=
  u <~ Math_random ;;
  s <~ Math_random ;;
  ret (jitter p u s radius_i).

(** Line 85: the interpolation fraction. *)
Definition fraction (p : Parameters num) (radius_i : num) : num :=
  radius_i / radius p.

(** The two typed arrays. *)
Record Buffers : Type := mkBuffers { positions : list num; colors : list num }.

(** [new Float32Array(n)]: [n] zeros. *)
Definition Float32Array (n : nat) : list num := replicate n (of_nat 0).

(** [a[i] = v] on a [Float32Array]: the value is converted to single
    precision; a store outside the array is ignored. *)
Definition store (a : list num) (i : nat) (v : num) : list num :=
  <[ i := toFloat32 v ]> a.

(** One iteration of the loop of lines 61 to 91. *)
Definition star (p : Parameters num) (colorInside colorOutside : Color num)
    (i : nat) (buf : Buffers) : Rand Buffers :=
  let i3 := (i * 3)%nat in
  u <~ Math_random ;;
  let radius_i := starRadius p u in
  let spinAngle := spinAngle p radius_i in
  let branchAngle := branchAngle p i in
  randomX <~ randomAxis p radius_i ;;
  randomY <~ randomAxis p radius_i ;;
  randomZ <~ randomAxis p radius_i ;;
  let positions := store (positions buf) i3
                     (Math_cos (branchAngle + spinAngle) * radius_i + randomX) in
  let positions := store positions (i3 + 1)%nat randomY in
  let positions := store positions (i3 + 2)%nat
                     (Math_sin (branchAngle + spinAngle) * radius_i + randomZ) in
  let mixedColor := clone colorInside in
  let mixedColor := lerp mixedColor colorOutside (fraction p radius_i) in
  let colors := store (colors buf) i3 (r mixedColor) in
  let colors := store colors (i3 + 1)%nat (g mixedColor) in
  let colors := store colors (i3 + 2)%nat (b mixedColor) in
  ret (mkBuffers positions colors).

(** [for (let i = i0; i < i0 + n; i++)]: [n] iterations from index [i]. *)
Fixpoint stars (p : Parameters num) (colorInside colorOutside : Color num)
    (n i : nat) (buf : Buffers) : Rand Buffers :=
  match n with
  | O => ret buf
  | S n' =>
      buf' <~ star p colorInside colorOutside i buf ;;
      stars p colorInside colorOutside n' (S i) buf'
  end.

(** Lines 53 to 91: the two arrays of one call. *)
Definition generate (p : Parameters num) : Rand Buffers :=
  let positions := Float32Array (count p * 3) in
  let colors := Float32Array (count p * 3) in
  let colorInside := THREE_Color (insideColor p) in
  let colorOutside := THREE_Color (outsideColor p) in
  stars p colorInside colorOutside (count p) 0 (mkBuffers positions colors).

(** Each iteration calls [Math.random] seven times: in a call of the generator
    that starts after [k0] calls, star [i] starts at this rank. *)
Definition firstDraw (k0 i : nat) : nat := (k0 + 7 * i)%nat.

(** The values of the local constants of iteration [i] when its first draw
    has rank [k]: [radius], and [randomX], [randomY], [randomZ]. *)
Definition radiusAt (p : Parameters num) (k : nat) : num :=
  starRadius p (rnd k).

Definition randomXAt (p : Parameters num) (k : nat) : num :=
  jitter p (rnd (1 + k)) (rnd (2 + k)) (radiusAt p k).

Definition randomYAt (p : Parameters num) (k : nat) : num :=
  jitter p (rnd (3 + k)) (rnd (4 + k)) (radiusAt p k).

Definition randomZAt (p : Parameters num) (k : nat) : num :=
  jitter p (rnd (5 + k)) (rnd (6 + k)) (radiusAt p k).

(** The three Numbers assigned to [positions] (lines 79 to 81) and the color
    whose channels are assigned to [colors] (lines 84 to 90). *)
Definition positionAt (p : Parameters num) (i k : nat) : list num :=
  [ Math_cos (branchAngle p i + spinAngle p (radiusAt p k)) * radiusAt p k
      + randomXAt p k;
    randomYAt p k;
    Math_sin (branchAngle p i + spinAngle p (radiusAt p k)) * radiusAt p k
      + randomZAt p k ].

Definition mixedColorAt (p : Parameters num) (k : nat) : Color num :=
  lerp (clone (THREE_Color (insideColor p))) (THREE_Color (outsideColor p))
       (fraction p (radiusAt p k)).

Definition channels (c : Color num) : list num := [r c; g c; b c].

(** A slice of three slots of a typed array, from slot [s]. *)
Definition slots (a : list num) (s : nat) : list num := take 3 (drop s a).
End Generator.


(** ** The scene and the module-level variables *)

Inductive Blending : Type := NormalBlending | AdditiveBlending.

(** [new THREE.BufferAttribute(array, itemSize)]. *)
Record BufferAttribute (num : Type) : Type :=
  mkAttribute { array : list num; itemSize : nat }.
Arguments mkAttribute {num} _ _.
Arguments array {num} _.
Arguments itemSize {num} _.

(** Objects have an identity: the rank of their allocation. *)
Record BufferGeometry (num : Type) : Type := mkGeometry {
  geometry_id : nat;
  position : BufferAttribute num;
  color : BufferAttribute num
}.
Arguments mkGeometry {num} _ _ _.
Arguments geometry_id {num} _.
Arguments position {num} _.
Arguments color {num} _.

Record PointsMaterial (num : Type) : Type := mkMaterial {
  material_id : nat;
  material_size : num;
  sizeAttenuation : bool;
  depthWrite : bool;
  blending : Blending;
  vertexColors : bool
}.
Arguments mkMaterial {num} _ _ _ _ _ _.
Arguments material_id {num} _.
Arguments material_size {num} _.
Arguments sizeAttenuation {num} _.
Arguments depthWrite {num} _.
Arguments blending {num} _.
Arguments vertexColors {num} _.

Record Points (num : Type) : Type := mkPoints {
  points_id : nat;
  points_geometry : BufferGeometry num;
  points_material : PointsMaterial num
}.
Arguments mkPoints {num} _ _ _.
Arguments points_id {num} _.
Arguments points_geometry {num} _.
Arguments points_material {num} _.

(** What the scene can hold in this script. *)
Inductive Object3D (num : Type) : Type :=
  | Galaxy (pts : Points num)
  | Camera.
Arguments Galaxy {num} _.
Arguments Camera {num}.

(** What a call does to the outside, in order. *)
Inductive Event : Type :=
  | GeometryDispose (id : nat)
  | MaterialDispose (id : nat)
  | SceneRemove (id : nat)
  | NewGeometry (id : nat)
  | NewMaterial (id : nat)
  | NewPoints (id : nat)
  | SceneAdd (id : nat).

(** The state of the script: the three variables of lines 34 to 36, the
    children of the scene, the resources disposed so far, the number of objects
    allocated, the number of calls of [Math.random] made inside
    [generateGalaxy], and the events so far. *)
Record World (num : Type) : Type := mkWorld {
  geometry : option (BufferGeometry num);
  material : option (PointsMaterial num);
  points : option (Points num);
  scene : list (Object3D num);
  disposed : list nat;
  allocated : nat;
  random_calls : nat;
  trace : list Event
}.
Arguments mkWorld {num} _ _ _ _ _ _ _ _.
Arguments geometry {num} _.
Arguments material {num} _.
Arguments points {num} _.
Arguments scene {num} _.
Arguments disposed {num} _.
Arguments allocated {num} _.
Arguments random_calls {num} _.
Arguments trace {num} _.

Section Scene.
Context {num : Type} {JS : JSNumber num}.

(** The values returned by the calls of [Math.random] made while
    [generateGalaxy] runs, in order (what other code draws between two calls
    of [generateGalaxy] is not counted). *)
Variable rnd : nat -> num.
Variable THREE_Color : string -> Color num.

(** The number of calls of [Math.random] that three.js makes to give an
    object its [uuid]: the constructors of [BufferGeometry], [PointsMaterial]
    and [Points] each do it once. *)
Variable uuid_draws : nat.

(** Identity of two objects. *)
Definition same_object (x y : Object3D num) : bool :=
  match x, y with
  | Galaxy p, Galaxy q => Nat.eqb (points_id p) (points_id q)
  | Camera, Camera => true
  | _, _ => false
  end.

(** [scene.remove(object)]: the first child identical to [object] is taken
    out, if there is one. *)
Fixpoint scene_remove (object : Object3D num) (children : list (Object3D num))
    : list (Object3D num) :=
  match children with
  | [] => []
  | x :: rest =>
      if same_object object x then rest else x :: scene_remove object rest
  end.

(** [scene.add(object)]: an object that already has a parent (here, the scene)
    is first removed from it; then it is pushed at the end. *)
Definition scene_add (object : Object3D num) (children : list (Object3D num))
    : list (Object3D num) :=
  scene_remove object children ++ [object].

(** The state before the first call (lines 15 and 34 to 36). *)
Definition initial : World num := mkWorld None None None [] [] 0 0 [].

(** Lines 43 to 47.  Calling [dispose] on [null] throws: [None]. *)
Definition release (w : World num) : option (World num) :=
  match points w with
  | None => Some w
  | Some pts =>
      match geometry w, material w with
      | Some geo, Some mat =>
          Some (mkWorld (geometry w) (material w) (points w)
                  (scene_remove (Galaxy pts) (scene w))
                  (material_id mat :: geometry_id geo :: disposed w)
                  (allocated w) (random_calls w)
                  (trace w ++ [GeometryDispose (geometry_id geo);
                               MaterialDispose (material_id mat);
                               SceneRemove (points_id pts)]))
      | _, _ => None
      end
  end.

(** Lines 52 to 112, from a state where the old galaxy has been released.
    The geometry is constructed before the loop, the material and the points
    after it. *)
Definition build (p : Parameters num) (w : World num) : World num :=
  let id := allocated w in
  let (buf, calls) :=
    generate rnd THREE_Color p (random_calls w + uuid_draws) in
  let geo := mkGeometry id (mkAttribute (positions buf) 3)
                           (mkAttribute (colors buf) 3) in
  let mat := mkMaterial (id + 1) (size p) true false AdditiveBlending true in
  let pts := mkPoints (id + 2) geo mat in
  mkWorld (Some geo) (Some mat) (Some pts)
    (scene_add (Galaxy pts) (scene w))
    (disposed w) (id + 3) (calls + 2 * uuid_draws)
    (trace w ++ [NewGeometry id; NewMaterial (id + 1); NewPoints (id + 2);
                 SceneAdd (id + 2)]).

(** [generateGalaxy], with the current value of [parameters]. *)
Definition generateGalaxy (p : Parameters num) (w : World num)
    : option (World num) :=
  match release w with
  | Some w' => Some (build p w')
  | None => None
  end.

(** Line 162: [scene.add(camera)]. *)
Definition add_camera (w : World num) : World num :=
  mkWorld (geometry w) (material w) (points w)
    (scene_add Camera (scene w))
    (disposed w) (allocated w) (random_calls w) (trace w).

(** The control panel: each committed change calls [generateGalaxy] with the
    parameters as they are then. *)
Fixpoint onFinishChange (changes : list (Parameters num)) (w : World num)
    : option (World num) :=
  match changes with
  | [] => Some w
  | p :: rest =>
      match generateGalaxy p w with
      | Some w' => onFinishChange rest w'
      | None => None
      end
  end.

(** The script: the first call (line 116) with the initial parameters, the
    camera, then the committed changes. *)
Definition script (p0 : Parameters num) (changes : list (Parameters num))
    : option (World num) :=
  match generateGalaxy p0 initial with
  | Some w => onFinishChange changes (add_camera w)
  | None => None
  end.

(** The galaxies attached to the scene. *)
Definition galaxies (children : list (Object3D num)) : list (Points num) :=
  omap (fun x => match x with Galaxy p => Some p | Camera => None end) children.

(** The state between two calls: the three variables are set, and the galaxy
    that [points] names is the only one attached to the scene. *)
Definition one_galaxy (w : World num) : Prop :=
  exists geo mat pts,
    geometry w = Some geo /\ material w = Some mat /\ points w = Some pts /\
    galaxies (scene w) = [pts] /\ points_id pts < allocated w.

(** The events of a call that finds the galaxy [pts], made of [geo] and [mat],
    and allocates from [id] on; and those of a call that finds nothing. *)
Definition replacing (geo : BufferGeometry num) (mat : PointsMaterial num)
    (pts : Points num) (id : nat) : list Event :=
  [GeometryDispose (geometry_id geo); MaterialDispose (material_id mat);
   SceneRemove (points_id pts);
   NewGeometry id; NewMaterial (id + 1); NewPoints (id + 2); SceneAdd (id + 2)].

Definition creating (id : nat) : list Event :=
  [NewGeometry id; NewMaterial (id + 1); NewPoints (id + 2); SceneAdd (id + 2)].
End Scene.


(** ** Exact arithmetic: Numbers as real numbers *)

(** The conversion to single precision that a store in a [Float32Array]
    applies, on the reals: a function that keeps the order, as rounding to the
    nearest binary32 number does. *)
Class Single : Type := {
  fround : R -> R;
  fround_monotone : forall x y : R, (x <= y)%R -> (fround x <= fround y)%R
}.

(** [Math.pow] on a base that is not negative and an exponent that is not
    negative (the base is a draw of [Math.random]); elsewhere JavaScript
    answers NaN or Infinity, which no real number stands for: what is stated
    of a power assumes a draw in [0, 1) and an exponent of at least 1. *)
Definition R_pow (x y : R) : R :=
  if Req_dec_T x 0 then (if Req_dec_T y 0 then 1%R else 0%R) else Rpower x y.

Definition R_lt (x y : R) : bool := if Rlt_dec x y then true else false.

(** The operations on Numbers are exact; a store in a [Float32Array] applies
    the conversion to single precision.  A division by zero, which JavaScript
    answers by NaN or an infinity, has no real value: what is stated of a
    quotient assumes a divisor that is not zero. *)
#[export] Instance Real {F : Single} : JSNumber R := {|
  of_nat := INR;
  half := (1 / 2)%R;
  neg := Ropp;
  add := Rplus;
  sub := Rminus;
  mul := Rmult;
  div := Rdiv;
  lt := R_lt;
  Math_PI := PI;
  Math_cos := cos;
  Math_sin := sin;
  Math_pow := R_pow;
  toFloat32 := fround
|}.

(** A conversion for the examples: it keeps 24 binary digits after the point,
    dropping the others. *)
Definition truncate24 (x : R) : R :=
  (IZR (Zfloor (x * 16777216)) / 16777216)%R.

#[export] Instance Truncation : Single := {|
  fround := truncate24;
  fround_monotone := fun (x y : R) (H : (x <= y)%R) =>
    Rmult_le_compat_r (/ 16777216) _ _
      (Rlt_le _ _ (Rinv_0_lt_compat _ (IZR_lt 0 16777216 eq_refl)))
      (IZR_le _ _
         (Zfloor_le _ _
            (Rmult_le_compat_r 16777216 x y
               (Rlt_le _ _ (IZR_lt 0 16777216 eq_refl)) H)))
|}.

(** The draws of [Math.random] lie in [0, 1). *)
Definition uniform (rnd : nat -> R) : Prop :=
  forall k : nat, (0 <= rnd k < 1)%R.

(** The parameters of lines 21 to 29, for a given [count]. *)
Definition defaults (count : nat) : Parameters R :=
  mkParameters count (1 / 100)%R 5%R 3 1%R (2 / 10)%R 3%R "#ff6030"%string "#1b3984"%string.

(** A sequence of draws, for the examples. *)
Definition alternating (k : nat) : R :=
  if Nat.even k then (1 / 4)%R else (3 / 4)%R.

(** A [THREE.Color] constructor for the examples: [#rrggbb] read as three
    channels over 255; anything else leaves the color white. *)
Definition hexDigit (c : Ascii.ascii) : option Z :=
  let n := Z.of_nat (Ascii.nat_of_ascii c) in
  if ((48 <=? n) && (n <=? 57))%Z then Some (n - 48)%Z
  else if ((97 <=? n) && (n <=? 102))%Z then Some (n - 87)%Z
  else if ((65 <=? n) && (n <=? 70))%Z then Some (n - 55)%Z
  else None.

Definition hexByte (hi lo : Ascii.ascii) : option Z :=
  match hexDigit hi, hexDigit lo with
  | Some h, Some l => Some (16 * h + l)%Z
  | _, _ => None
  end.

Definition hexColor (s : string) : Color R :=
  match s with
  | String "#"%char (String a1 (String a2 (String b1 (String b2
      (String c1 (String c2 EmptyString)))))) =>
      match hexByte a1 a2, hexByte b1 b2, hexByte c1 c2 with
      | Some x, Some y, Some z =>
          mkColor (IZR x / 255)%R (IZR y / 255)%R (IZR z / 255)%R
      | _, _, _ => mkColor 1%R 1%R 1%R
      end
  | _ => mkColor 1%R 1%R 1%R
  end.

(** ** IEEE 754: Numbers as binary64 floating-point numbers *)

(** Rounding to binary32 (24 bits of precision, exponents up to 128), to
    nearest, ties to even: what a [Float32Array] keeps of a Number. *)
Definition float32 (x : float) : float :=
  match Prim2SF x with
  | S754_finite s m e => SF2Prim (binary_round 24 128 s m e)
  | _ => x
  end.

(** [Math.cos], [Math.sin] and [Math.pow] are approximations that each engine
    chooses: they are arguments. *)
Definition Binary64 (cos sin : float -> float) (pow : float -> float -> float)
    : JSNumber float := {|
  of_nat := fun n => PrimFloat.of_uint63 (Uint63.of_Z (Z.of_nat n));
  half := 0.5%float;
  neg := PrimFloat.opp;
  add := PrimFloat.add;
  sub := PrimFloat.sub;
  mul := PrimFloat.mul;
  div := PrimFloat.div;
  lt := PrimFloat.ltb;
  Math_PI := 0x1.921fb54442d18p+1%float;
  Math_cos := cos;
  Math_sin := sin;
  Math_pow := pow;
  toFloat32 := float32
|}.

(** Approximations of [Math.cos], [Math.sin] and [Math.pow] for the examples:
    the first terms of the series of the cosine and of the sine, and the cube
    (the default [randomnessPower] is 3). *)
Definition series_cos (x : float) : float :=
  (1 - x * x / 2 + x * x * x * x / 24)%float.

Definition series_sin (x : float) : float :=
  (x - x * x * x / 6 + x * x * x * x * x / 120)%float.

Definition cube (x y : float) : float := (x * x * x)%float.

(** Parameters whose radius is zero, for a given [count]. *)
Definition collapsed (count : nat) : Parameters float :=
  mkParameters count 0.015625%float 0%float 3 1%float 0.25%float 3%float
    "#ff6030"%string "#1b3984"%string.

(** A sequence of draws in binary64, for the examples. *)
Definition alternating64 (k : nat) : float :=
  if Nat.even k then 0.25%float else 0.75%float.

(** A [THREE.Color] constructor for the examples in binary64: the two default
    colors, channel by channel over 255; white otherwise. *)
Definition defaultColor64 (s : string) : Color float :=
  if String.eqb s "#ff6030" then
    mkColor (255 / 255)%float (96 / 255)%float (48 / 255)%float
  else if String.eqb s "#1b3984" then
    mkColor (27 / 255)%float (57 / 255)%float (132 / 255)%float
  else mkColor 1%float 1%float 1%float.

(** ** What a call builds, and the state between two calls *)

Section Built.
Context {num : Type} {JS : JSNumber num}.
Variable rnd : nat -> num.
Variable THREE_Color : string -> Color num.
Variable uuid_draws : nat.

(** The [Points] object of lines 52 to 111 when the call allocates its objects
    from [id] on and its loop starts after [k] draws. *)
Definition built (p : Parameters num) (id k : nat) : Points num :=
  let buf := fst (generate rnd THREE_Color p k) in
  mkPoints (id + 2)
    (mkGeometry id (mkAttribute (positions buf) 3) (mkAttribute (colors buf) 3))
    (mkMaterial (id + 1) (size p) true false AdditiveBlending true).

(** The state after call number [n] (from 0), made with the parameters [p],
    its loop starting after [k] draws, once the camera is in the scene: the
    variables name the
    objects of that call, the scene holds the camera and that galaxy ([first]
    tells whether the galaxy was attached before the camera), and the disposed
    resources are the geometries and the materials of the calls before. *)
Definition settled (p : Parameters num) (n k : nat) (first : bool)
    (w : World num) : Prop :=
  let pts := built p (3 * n) k in
  geometry w = Some (points_geometry pts) /\
  material w = Some (points_material pts) /\
  points w = Some pts /\
  scene w = (if first then [Galaxy pts; Camera] else [Camera; Galaxy pts]) /\
  allocated w = 3 * n + 3 /\
  random_calls w = k + 7 * count p + 2 * uuid_draws /\
  NoDup (disposed w) /\
  length (disposed w) = 2 * n /\
  (forall id : nat,
     id ∈ disposed w <-> exists j : nat, j < n /\ (id = 3 * j \/ id = 3 * j + 1)).
End Built.

(** Draws that follow [alternating] for the first fourteen calls only. *)
Definition alternating_then_zero (k : nat) : R :=
  if Nat.ltb k 14 then alternating k else 0%R.

(** ** The page: window, camera, renderer and animation loop *)

(** [Math.min], which the script uses besides the operations of [JSNumber]. *)
Class JSMath (num : Type) : Type := { Math_min : num -> num -> num }.

(** What the script reads of [window]. *)
Record Window (num : Type) : Type := mkWindow {
  innerWidth : num;
  innerHeight : num;
  devicePixelRatio : num
}.
Arguments mkWindow {num} _ _ _.
Arguments innerWidth {num} _.
Arguments innerHeight {num} _.
Arguments devicePixelRatio {num} _.

(** The object [sizes] of lines 136 to 139. *)
Record Sizes (num : Type) : Type := mkSizes { width : num; height : num }.
Arguments mkSizes {num} _ _.
Arguments width {num} _.
Arguments height {num} _.

(** The camera: its projection and its position. *)
Record PerspectiveCamera (num : Type) : Type := mkCamera {
  fov : num;
  aspect : num;
  near : num;
  far : num;
  camera_position : num * num * num
}.
Arguments mkCamera {num} _ _ _ _ _.
Arguments fov {num} _.
Arguments aspect {num} _.
Arguments near {num} _.
Arguments far {num} _.
Arguments camera_position {num} _.

(** The renderer: the size and the pixel ratio it was last given. *)
Record WebGLRenderer (num : Type) : Type := mkRenderer {
  renderer_width : num;
  renderer_height : num;
  pixelRatio : num
}.
Arguments mkRenderer {num} _ _ _.
Arguments renderer_width {num} _.
Arguments renderer_height {num} _.
Arguments pixelRatio {num} _.

(** What one call of [renderer.render(scene, camera)] draws: the children of
    the scene, the [rotation.y] of each galaxy among them, the camera and the
    renderer as they are then. *)
Record Frame (num : Type) : Type := mkFrame {
  frame_scene : list (Object3D num);
  frame_rotation_y : list num;
  frame_camera : PerspectiveCamera num;
  frame_renderer : WebGLRenderer num
}.
Arguments mkFrame {num} _ _ _ _.
Arguments frame_scene {num} _.
Arguments frame_rotation_y {num} _.
Arguments frame_camera {num} _.
Arguments frame_renderer {num} _.

(** The state of the page.  [Controls] is the state of the orbit controls;
    [rotation_y] gives the [rotation.y] of the [Points] object of each
    identity; [requested] counts the callbacks given to
    [requestAnimationFrame] and not called yet; [frames] are the frames drawn,
    the latest first. *)
Record Page (num Controls : Type) : Type := mkPage {
  world : World num;
  parameters : Parameters num;
  sizes : Sizes num;
  camera : PerspectiveCamera num;
  controls : Controls;
  renderer : WebGLRenderer num;
  rotation_y : nat -> num;
  requested : nat;
  frames : list (Frame num)
}.
Arguments mkPage {num Controls} _ _ _ _ _ _ _ _ _.
Arguments world {num Controls} _.
Arguments parameters {num Controls} _.
Arguments sizes {num Controls} _.
Arguments camera {num Controls} _.
Arguments controls {num Controls} _.
Arguments renderer {num Controls} _.
Arguments rotation_y {num Controls} _.
Arguments requested {num Controls} _.
Arguments frames {num Controls} _.

(** What the host can do to the page once the script has run: resize the
    window, write a value in [parameters] through the panel, commit a change of
    the panel, act on the orbit controls, and call the animation callback with
    the time the clock gives then. *)
Inductive HostEvent (num Controls : Type) : Type :=
  | Resize (win : Window num)
  | Change (p : Parameters num)
  | FinishChange
  | Pointer (input : Controls -> Controls)
  | AnimationFrame (elapsedTime : num).
Arguments Resize {num Controls} _.
Arguments Change {num Controls} _.
Arguments FinishChange {num Controls}.
Arguments Pointer {num Controls} _.
Arguments AnimationFrame {num Controls} _.

Section PageModel.
Context {num : Type} {JS : JSNumber num} {JM : JSMath num}.
Variable rnd : nat -> num.
Variable THREE_Color : string -> Color num.
Variable uuid_draws : nat.
Variable Controls : Type.
Local Open Scope js_scope.

(** [controls.update()]: the orbit controls move the camera and change their
    own state. *)
Variable OrbitControls_update :
  Controls -> num * num * num -> Controls * (num * num * num).

(** The literal [0.05] of line 189: the Number nearest to 5/100. *)
Definition rotation_speed : num := of_nat 5 / of_nat 100.

(** Lines 143 to 152, which lines 137, 138, 158, 176 and 177 also follow when
    the script starts: the sizes, the aspect of the camera, and the size and
    the pixel ratio of the renderer, from the window. *)
Definition resized_sizes (win : Window num) : Sizes num :=
  mkSizes (innerWidth win) (innerHeight win).

Definition resized_renderer (win : Window num) : WebGLRenderer num :=
  mkRenderer (width (resized_sizes win)) (height (resized_sizes win))
    (Math_min (devicePixelRatio win) (of_nat 2)).

(** The listener of lines 141 to 153. *)
Definition onResize (win : Window num) (a : Page num Controls)
    : Page num Controls :=
  let sizes := resized_sizes win in
  let camera := mkCamera (fov (camera a)) (width sizes / height sizes)
                  (near (camera a)) (far (camera a))
                  (camera_position (camera a)) in
  mkPage (world a) (parameters a) sizes camera (controls a)
    (resized_renderer win) (rotation_y a) (requested a) (frames a).

(** [tick] (lines 184 to 200), with the time that the clock gives. *)
Definition tick (elapsedTime : num) (a : Page num Controls)
    : Page num Controls :=
  let rotation_y :=
    match points (world a) with
    | Some pts =>
        fun id => if Nat.eqb id (points_id pts)
                  then elapsedTime * rotation_speed
                  else rotation_y a id
    | None => rotation_y a
    end in
  let (controls, position) :=
    OrbitControls_update (controls a) (camera_position (camera a)) in
  let camera := mkCamera (fov (camera a)) (aspect (camera a))
                  (near (camera a)) (far (camera a)) position in
  let frame := mkFrame (scene (world a))
                 (map (fun pts => rotation_y (points_id pts))
                      (galaxies (scene (world a))))
                 camera (renderer a) in
  mkPage (world a) (parameters a) (sizes a) camera controls (renderer a)
    rotation_y (requested a + 1) (frame :: frames a).

(** The script from top to bottom: the first call of [generateGalaxy] with the
    parameters of lines 21 to 29, the sizes, the camera (field of view 75,
    planes at 0.1 and 100, at (3, 3, 3)) and its insertion in the scene, the
    controls, the renderer, and the first call of [tick]. *)
Definition boot (p0 : Parameters num) (win : Window num) (controls0 : Controls)
    (elapsed0 : num) : option (Page num Controls) :=
  match generateGalaxy rnd THREE_Color uuid_draws p0 initial with
  | None => None
  | Some w =>
      let sizes := resized_sizes win in
      let camera := mkCamera (of_nat 75) (width sizes / height sizes)
                      (of_nat 1 / of_nat 10) (of_nat 100)
                      (of_nat 3, of_nat 3, of_nat 3) in
      Some (tick elapsed0
              (mkPage (add_camera w) p0 sizes camera controls0
                 (resized_renderer win) (fun _ => of_nat 0) 0 []))
  end.

(** One event.  A committed change calls [generateGalaxy], which reads
    [parameters]; an animation frame calls the callback that was requested, if
    there is one. *)
Definition handle (e : HostEvent num Controls) (a : Page num Controls)
    : option (Page num Controls) :=
  match e with
  | Resize win => Some (onResize win a)
  | Change p =>
      Some (mkPage (world a) p (sizes a) (camera a) (controls a) (renderer a)
              (rotation_y a) (requested a) (frames a))
  | FinishChange =>
      match generateGalaxy rnd THREE_Color uuid_draws (parameters a) (world a) with
      | Some w =>
          Some (mkPage w (parameters a) (sizes a) (camera a) (controls a)
                  (renderer a) (rotation_y a) (requested a) (frames a))
      | None => None
      end
  | Pointer input =>
      Some (mkPage (world a) (parameters a) (sizes a) (camera a)
              (input (controls a)) (renderer a) (rotation_y a) (requested a)
              (frames a))
  | AnimationFrame elapsedTime =>
      match requested a with
      | O => Some a
      | S n =>
          Some (tick elapsedTime
                  (mkPage (world a) (parameters a) (sizes a) (camera a)
                     (controls a) (renderer a) (rotation_y a) n (frames a)))
      end
  end.

Fixpoint run (events : list (HostEvent num Controls)) (a : Page num Controls)
    : option (Page num Controls) :=
  match events with
  | [] => Some a
  | e :: rest =>
      match handle e a with
      | Some a' => run rest a'
      | None => None
      end
  end.

(** The script, then the events. *)
Definition session (p0 : Parameters num) (win : Window num)
    (controls0 : Controls) (elapsed0 : num)
    (events : list (HostEvent num Controls)) : option (Page num Controls) :=
  match boot p0 win controls0 elapsed0 with
  | Some a => run events a
  | None => None
  end.

(** The parameters of the committed changes among the events, [current] being
    the value of [parameters] before them. *)
Fixpoint commits (current : Parameters num) (events : list (HostEvent num Controls))
    : list (Parameters num) :=
  match events with
  | [] => []
  | Change p :: rest => commits p rest
  | FinishChange :: rest => current :: commits current rest
  | _ :: rest => commits current rest
  end.

(** The window of the last resize among the events, [win] being the window
    before them. *)
Fixpoint last_window (win : Window num) (events : list (HostEvent num Controls))
    : Window num :=
  match events with
  | [] => win
  | Resize win' :: rest => last_window win' rest
  | _ :: rest => last_window win rest
  end.

(** The times of the animation frames among the events. *)
Fixpoint frame_times (events : list (HostEvent num Controls)) : list num :=
  match events with
  | [] => []
  | AnimationFrame t :: rest => t :: frame_times rest
  | _ :: rest => frame_times rest
  end.
(** The state of the page between two events, [win] being the window of the
    last resize: the world is settled, one animation callback is requested,
    and the sizes, the renderer and the camera follow the window. *)
Definition steady (win : Window num) (a : Page num Controls) : Prop :=
  (exists p n k first, settled rnd THREE_Color uuid_draws p n k first (world a)) /\
  requested a = 1 /\
  sizes a = resized_sizes win /\
  renderer a = resized_renderer win /\
  aspect (camera a) = width (sizes a) / height (sizes a) /\
  fov (camera a) = of_nat 75 /\
  near (camera a) = of_nat 1 / of_nat 10 /\
  far (camera a) = of_nat 100.

(** The time of each animation frame among the events, with the window of
    the last resize before it, [win] being the window before the events. *)
Fixpoint frame_stamps (win : Window num) (events : list (HostEvent num Controls))
    : list (num * Window num) :=
  match events with
  | [] => []
  | Resize win' :: rest => frame_stamps win' rest
  | AnimationFrame t :: rest => (t, win) :: frame_stamps win rest
  | _ :: rest => frame_stamps win rest
  end.

(** The window in force at each animation frame among the events. *)
Definition frame_windows (win : Window num)
    (events : list (HostEvent num Controls)) : list (Window num) :=
  map snd (frame_stamps win events).

(** A frame drawn at the time [t] while the window of the last resize is
    [win]: one galaxy, turned by [t] times the speed, and the camera; the
    renderer as set from [win], and a camera whose aspect is that of the
    renderer. *)
Definition drawn (stamp : num * Window num) (f : Frame num) : Prop :=
  frame_rotation_y f = [fst stamp * rotation_speed] /\
  (exists pts, frame_scene f = [Galaxy pts; Camera] \/
               frame_scene f = [Camera; Galaxy pts]) /\
  frame_renderer f = resized_renderer (snd stamp) /\
  aspect (frame_camera f)
    = renderer_width (frame_renderer f) / renderer_height (frame_renderer f).
End PageModel.

(** [Math.min] in exact arithmetic. *)
#[export] Instance Real_math : JSMath R := {| Math_min := Rmin |}.

(** [Math.min] in binary64: NaN if an argument is NaN, and the negative zero
    is below the positive one. *)
Definition min64 (x y : float) : float :=
  if (PrimFloat.is_nan x || PrimFloat.is_nan y)%bool then nan
  else if PrimFloat.ltb x y then x
  else if PrimFloat.ltb y x then y
  else if PrimFloat.get_sign x then x else y.

Definition Binary64_math : JSMath float := {| Math_min := min64 |}.

(** A [THREE.Color] constructor in binary64 for the examples: [#rrggbb] read
    as three channels over 255; anything else leaves the color white. *)
Definition hexColor64 (s : string) : Color float :=
  let channel (x : Z) : float :=
    (PrimFloat.of_uint63 (Uint63.of_Z x) / 255)%float in
  match s with
  | String "#"%char (String a1 (String a2 (String b1 (String b2
      (String c1 (String c2 EmptyString)))))) =>
      match hexByte a1 a2, hexByte b1 b2, hexByte c1 c2 with
      | Some x, Some y, Some z => mkColor (channel x) (channel y) (channel z)
      | _, _, _ => mkColor 1%float 1%float 1%float
      end
  | _ => mkColor 1%float 1%float 1%float
  end.

(** The largest Number below 1, and a random source that always gives it. *)
Definition nearly_one : float := 0x1.fffffffffffffp-1%float.

Definition always_nearly_one (k : nat) : float := nearly_one.

(** [Math.pow] at the exponent 1, which gives its first argument. *)
Definition first_power (x y : float) : float := x.

(** One star, with [radius] 0.1, [randomness] 1 and [randomnessPower] 1. *)
Definition tight : Parameters float :=
  mkParameters 1 (1 / 100)%float (1 / 10)%float 3 1%float 1%float 1%float
    "#ff6030"%string "#1b3984"%string.


(** The scenario of section 8, item 6, in binary64; the fields it leaves open
    are arguments. *)
Definition scenario64 (size randomnessPower : float)
    (insideColor outsideColor : string) : Parameters float :=
  mkParameters 4 size 1%float 2 0%float 0%float randomnessPower
    insideColor outsideColor.

(** Draws in [0, 1), in binary64. *)
Definition uniform64 (rnd : nat -> float) : Prop :=
  forall k : nat,
    PrimFloat.leb 0 (rnd k) = true /\ PrimFloat.ltb (rnd k) 1 = true.

(** The parameters of lines 21 to 29 in binary64, for a given [count]. *)
Definition defaults64 (count : nat) : Parameters float :=
  mkParameters count (1 / 100)%float 5%float 3 1%float (2 / 10)%float 3%float
    "#ff6030"%string "#1b3984"%string.

(** Orbit controls for the examples: the state is the angle turned so far,
    and an update leaves the camera where it is. *)
Definition still (angle : R) (position : R * R * R) : R * (R * R * R) :=
  (angle, position).

(** A window for the examples, 1920 by 1080 on a display of pixel ratio 3. *)
Definition desktop : Window R := mkWindow 1920%R 1080%R 3%R.

(** * Properties *)

(** ** The loop, for any arithmetic *)

Section GeneratorFacts.
Context {num : Type} {JS : JSNumber num}.
Variable rnd : nat -> num.
Variable THREE_Color : string -> Color num.


Lemma store_length (a : list num) (i : nat) (v : num) :
  length (store a i v) = length a.
Proof. apply length_insert. Qed.

Lemma store_other (a : list num) (i j : nat) (v : num) :
  i <> j -> store a i v !! j = a !! j.
Proof. intros Hij. unfold store. now apply list_lookup_insert_ne. Qed.

Lemma store_same (a : list num) (i : nat) (v : num) :
  i < length a -> store a i v !! i = Some (toFloat32 v).
Proof. intros Hi. unfold store. now apply list_lookup_insert_eq. Qed.

(** One iteration, unfolded: seven draws and six stores. *)
Lemma star_unfold (p : Parameters num) (cI cO : Color num) (i : nat)
    (buf : Buffers) (k : nat) :
  star rnd p cI cO i buf k =
  (let ri := starRadius p (rnd k) in
   let theta := add (branchAngle p i) (spinAngle p ri) in
   let c := lerp (clone cI) cO (fraction p ri) in
   mkBuffers
     (store (store (store (positions buf) (i * 3)
        (add (mul (Math_cos theta) ri) (jitter p (rnd (1 + k)) (rnd (2 + k)) ri)))
        (i * 3 + 1) (jitter p (rnd (3 + k)) (rnd (4 + k)) ri))
        (i * 3 + 2)
        (add (mul (Math_sin theta) ri) (jitter p (rnd (5 + k)) (rnd (6 + k)) ri)))
     (store (store (store (colors buf) (i * 3) (r c)) (i * 3 + 1) (g c))
        (i * 3 + 2) (b c)),
   7 + k).
Proof. reflexivity. Qed.

Lemma stars_step (p : Parameters num) (cI cO : Color num) (n i : nat)
    (buf : Buffers) (k : nat) :
  stars rnd p cI cO (S n) i buf k =
  stars rnd p cI cO n (S i) (fst (star rnd p cI cO i buf k)) (7 + k).
Proof. reflexivity. Qed.

(** The loop calls [Math.random] seven times for each star. *)
Lemma stars_calls (p : Parameters num) (cI cO : Color num) (n : nat) :
  forall (i : nat) (buf : Buffers) (k : nat),
    snd (stars rnd p cI cO n i buf k) = 7 * n + k.
Proof.
  induction n as [|n IH]; intros i buf k.
  - reflexivity.
  - rewrite stars_step, IH. lia.
Qed.

(** The arrays keep their lengths. *)
Lemma star_lengths (p : Parameters num) (cI cO : Color num) (i : nat)
    (buf : Buffers) (k : nat) :
  length (positions (fst (star rnd p cI cO i buf k))) = length (positions buf) /\
  length (colors (fst (star rnd p cI cO i buf k))) = length (colors buf).
Proof. rewrite star_unfold. cbn. now rewrite !store_length. Qed.

Lemma stars_lengths (p : Parameters num) (cI cO : Color num) (n : nat) :
  forall (i : nat) (buf : Buffers) (k : nat),
    length (positions (fst (stars rnd p cI cO n i buf k))) = length (positions buf) /\
    length (colors (fst (stars rnd p cI cO n i buf k))) = length (colors buf).
Proof.
  induction n as [|n IH]; intros i buf k.
  - now split.
  - rewrite stars_step.
    destruct (IH (S i) (fst (star rnd p cI cO i buf k)) (7 + k)) as [Hp Hc].
    destruct (star_lengths p cI cO i buf k) as [Hp' Hc'].
    split; congruence.
Qed.

(** Iteration [i] writes to the slots [3i], [3i+1] and [3i+2] only. *)
Lemma star_elsewhere (p : Parameters num) (cI cO : Color num) (i : nat)
    (buf : Buffers) (k s : nat) :
  s < i * 3 \/ i * 3 + 2 < s ->
  positions (fst (star rnd p cI cO i buf k)) !! s = positions buf !! s /\
  colors (fst (star rnd p cI cO i buf k)) !! s = colors buf !! s.
Proof.
  intros Hs. rewrite star_unfold. cbn.
  rewrite !store_other by lia. now split.
Qed.

(** The iterations from [i] on leave the slots below [3i] as they are. *)
Lemma stars_before (p : Parameters num) (cI cO : Color num) (n : nat) :
  forall (i : nat) (buf : Buffers) (k s : nat),
    s < i * 3 ->
    positions (fst (stars rnd p cI cO n i buf k)) !! s = positions buf !! s /\
    colors (fst (stars rnd p cI cO n i buf k)) !! s = colors buf !! s.
Proof.
  induction n as [|n IH]; intros i buf k s Hs.
  - now split.
  - rewrite stars_step.
    destruct (IH (S i) (fst (star rnd p cI cO i buf k)) (7 + k) s) as [Hp Hc];
      [lia|].
    destruct (star_elsewhere p cI cO i buf k s) as [Hp' Hc']; [lia|].
    split; congruence.
Qed.

(** Three consecutive slots, read as a slice. *)
Lemma slots_lookup (a : list num) (s : nat) (x y z : num) :
  a !! s = Some x -> a !! (s + 1) = Some y -> a !! (s + 2) = Some z ->
  slots a s = [x; y; z].
Proof.
  intros Hx Hy Hz. unfold slots. apply list_eq. intros n.
  destruct n as [|[|[|n]]]; cbn.
  - rewrite lookup_take_lt, lookup_drop by lia. now rewrite Nat.add_0_r.
  - rewrite lookup_take_lt, lookup_drop by lia. exact Hy.
  - rewrite lookup_take_lt, lookup_drop by lia. exact Hz.
  - apply lookup_take_ge. lia.
Qed.

(** What iteration [i] leaves in its own slots. *)
Lemma star_slots (p : Parameters num) (cI cO : Color num) (i : nat)
    (buf : Buffers) (k c : nat) :
  i * 3 + 2 < length (positions buf) ->
  i * 3 + 2 < length (colors buf) ->
  c < 3 ->
  positions (fst (star rnd p cI cO i buf k)) !! (i * 3 + c) =
    map toFloat32 (positionAt rnd p i k) !! c /\
  colors (fst (star rnd p cI cO i buf k)) !! (i * 3 + c) =
    map toFloat32
      (channels (lerp (clone cI) cO (fraction p (radiusAt rnd p k)))) !! c.
Proof.
  intros Hp Hc Hlt. rewrite star_unfold. cbn.
  destruct c as [|[|[|c]]]; [| | |lia]; cbn;
    rewrite ?Nat.add_0_r;
    repeat first [ rewrite store_same by (rewrite ?store_length; lia)
                 | rewrite store_other by lia ];
    now split.
Qed.

(** The loop: star [j] is computed from the seven draws that start at rank
    [k + 7 (j - i)] and occupies the slots [3j], [3j+1], [3j+2]. *)
Lemma stars_slots (p : Parameters num) (cI cO : Color num) (n : nat) :
  forall (i : nat) (buf : Buffers) (k j c : nat),
    i <= j < i + n ->
    (i + n) * 3 <= length (positions buf) ->
    (i + n) * 3 <= length (colors buf) ->
    c < 3 ->
    positions (fst (stars rnd p cI cO n i buf k)) !! (j * 3 + c) =
      map toFloat32 (positionAt rnd p j (k + 7 * (j - i))) !! c /\
    colors (fst (stars rnd p cI cO n i buf k)) !! (j * 3 + c) =
      map toFloat32
        (channels (lerp (clone cI) cO
                     (fraction p (radiusAt rnd p (k + 7 * (j - i)))))) !! c.
Proof.
  induction n as [|n IH]; intros i buf k j c Hj Hp Hc Hlt; [lia|].
  rewrite stars_step.
  destruct (star_lengths p cI cO i buf k) as [Lp Lc].
  destruct (Nat.eq_dec j i) as [->|Hne].
  - destruct (stars_before p cI cO n (S i) (fst (star rnd p cI cO i buf k))
                (7 + k) (i * 3 + c)) as [Bp Bc]; [lia|].
    rewrite Bp, Bc, Nat.sub_diag, Nat.mul_0_r, Nat.add_0_r.
    apply star_slots; lia.
  - destruct (IH (S i) (fst (star rnd p cI cO i buf k)) (7 + k) j c) as [Ip Ic];
      [lia|lia|lia|lia|].
    rewrite Ip, Ic.
    replace (7 + k + 7 * (j - S i)) with (k + 7 * (j - i)) by lia.
    now split.
Qed.

(** [new Float32Array(n)] has [n] slots. *)
Lemma Float32Array_length (n : nat) : length (Float32Array n) = n.
Proof. apply length_replicate. Qed.

(** A call of the generator makes [7 * count] draws. *)
Lemma generate_calls (p : Parameters num) (k0 : nat) :
  snd (generate rnd THREE_Color p k0) = 7 * count p + k0.
Proof. unfold generate. apply stars_calls. Qed.

Lemma generate_lengths (p : Parameters num) (k0 : nat) :
  length (positions (fst (generate rnd THREE_Color p k0))) = 3 * count p /\
  length (colors (fst (generate rnd THREE_Color p k0))) = 3 * count p.
Proof.
  unfold generate.
  destruct (stars_lengths p (THREE_Color (insideColor p))
              (THREE_Color (outsideColor p)) (count p) 0
              (mkBuffers (Float32Array (count p * 3)) (Float32Array (count p * 3)))
              k0) as [Hp Hc].
  rewrite Hp, Hc. cbn. rewrite Float32Array_length. lia.
Qed.

(** The slices of star [i] after a call that starts after [k0] draws. *)
Lemma generate_slots (p : Parameters num) (k0 i : nat) :
  i < count p ->
  slots (positions (fst (generate rnd THREE_Color p k0))) (i * 3) =
    map toFloat32 (positionAt rnd p i (firstDraw k0 i)) /\
  slots (colors (fst (generate rnd THREE_Color p k0))) (i * 3) =
    map toFloat32 (channels (mixedColorAt rnd THREE_Color p (firstDraw k0 i))).
Proof.
  intros Hi. unfold generate, firstDraw, mixedColorAt.
  pose proof (fun c (Hc : c < 3) =>
    stars_slots p (THREE_Color (insideColor p)) (THREE_Color (outsideColor p))
      (count p) 0
      (mkBuffers (Float32Array (count p * 3)) (Float32Array (count p * 3)))
      k0 i c
      ltac:(lia)
      ltac:(cbn; rewrite Float32Array_length; lia)
      ltac:(cbn; rewrite Float32Array_length; lia) Hc) as S.
  rewrite Nat.sub_0_r in S.
  destruct (S 0 ltac:(lia)) as [P0 C0].
  destruct (S 1 ltac:(lia)) as [P1 C1].
  destruct (S 2 ltac:(lia)) as [P2 C2].
  rewrite Nat.add_0_r in P0, C0.
  split.
  - now apply slots_lookup.
  - now apply slots_lookup.
Qed.
End GeneratorFacts.

(** ** Regeneration, for any arithmetic *)

Section SceneFacts.
Context {num : Type} {JS : JSNumber num}.
Variable rnd : nat -> num.
Variable THREE_Color : string -> Color num.
Variable uuid_draws : nat.


Lemma galaxies_app (l l' : list (Object3D num)) :
  galaxies (l ++ l') = galaxies l ++ galaxies l'.
Proof. apply omap_app. Qed.

Lemma galaxies_galaxy (q : Points num) (l : list (Object3D num)) :
  galaxies (Galaxy q :: l) = q :: galaxies l.
Proof. reflexivity. Qed.

Lemma galaxies_camera (l : list (Object3D num)) :
  galaxies (Camera :: l) = galaxies l.
Proof. reflexivity. Qed.

(** Removing the only galaxy of the scene leaves none. *)
Lemma galaxies_remove_only (pts : Points num) (l : list (Object3D num)) :
  galaxies l = [pts] -> galaxies (scene_remove (Galaxy pts) l) = [].
Proof.
  induction l as [|x l IH]; intros Hl; [discriminate|].
  destruct x as [q|]; cbn [scene_remove same_object].
  - rewrite galaxies_galaxy in Hl. injection Hl as -> Hrest.
    now rewrite Nat.eqb_refl.
  - rewrite galaxies_camera in *. auto.
Qed.

(** Removing a galaxy from a scene that has none changes nothing. *)
Lemma scene_remove_absent (pts : Points num) (l : list (Object3D num)) :
  galaxies l = [] -> scene_remove (Galaxy pts) l = l.
Proof.
  induction l as [|x l IH]; intros Hl; [reflexivity|].
  destruct x as [q|]; cbn [scene_remove same_object].
  - rewrite galaxies_galaxy in Hl. discriminate.
  - rewrite galaxies_camera in Hl. now rewrite IH.
Qed.

(** Removing the camera does not touch the galaxies. *)
Lemma galaxies_remove_camera (l : list (Object3D num)) :
  galaxies (scene_remove Camera l) = galaxies l.
Proof.
  induction l as [|x l IH]; [reflexivity|].
  destruct x as [q|]; cbn [scene_remove same_object].
  - now rewrite !galaxies_galaxy, IH.
  - now rewrite galaxies_camera.
Qed.

Lemma galaxies_add_camera (l : list (Object3D num)) :
  galaxies (scene_add Camera l) = galaxies l.
Proof.
  unfold scene_add. rewrite galaxies_app, galaxies_remove_camera. cbn.
  apply app_nil_r.
Qed.

(** Adding a galaxy to a scene that has none gives a scene with that one. *)
Lemma galaxies_add_first (pts : Points num) (l : list (Object3D num)) :
  galaxies l = [] -> galaxies (scene_add (Galaxy pts) l) = [pts].
Proof.
  intros Hl. unfold scene_add.
  now rewrite scene_remove_absent, galaxies_app, Hl.
Qed.

(** [build] sets the three variables, attaches the new galaxy and appends the
    four events of a creation. *)
Lemma build_spec (p : Parameters num) (w : World num) :
  galaxies (scene w) = [] ->
  one_galaxy (build rnd THREE_Color uuid_draws p w) /\
  trace (build rnd THREE_Color uuid_draws p w) = trace w ++ creating (allocated w) /\
  disposed (build rnd THREE_Color uuid_draws p w) = disposed w /\
  (exists pts, points (build rnd THREE_Color uuid_draws p w) = Some pts /\ points_id pts = allocated w + 2).
Proof.
  intros Hs. unfold build.
  destruct (generate rnd THREE_Color p (random_calls w + uuid_draws))
    as [buf calls]. cbn.
  repeat split.
  - do 3 eexists. repeat split; cbn; [now apply galaxies_add_first | lia].
  - eexists. split; reflexivity.
Qed.

(** The first call releases nothing. *)
Lemma first_call (p : Parameters num) :
  exists w,
    generateGalaxy rnd THREE_Color uuid_draws p initial = Some w /\ one_galaxy w /\
    trace w = creating 0 /\ disposed w = [].
Proof.
  exists (build rnd THREE_Color uuid_draws p initial). unfold generateGalaxy. cbn.
  destruct (build_spec p initial eq_refl) as (Hone & Htr & Hd & _).
  now repeat split.
Qed.

(** A later call releases the galaxy it finds, then builds the new one. *)
Lemma later_call (p : Parameters num) (w : World num)
    (geo : BufferGeometry num) (mat : PointsMaterial num) (pts : Points num) :
  geometry w = Some geo -> material w = Some mat -> points w = Some pts ->
  galaxies (scene w) = [pts] -> points_id pts < allocated w ->
  exists w',
    generateGalaxy rnd THREE_Color uuid_draws p w = Some w' /\ one_galaxy w' /\
    trace w' = trace w ++ replacing geo mat pts (allocated w) /\
    disposed w' = material_id mat :: geometry_id geo :: disposed w /\
    (exists pts', points w' = Some pts' /\ galaxies (scene w') = [pts'] /\
                  points_id pts' <> points_id pts).
Proof.
  intros Hg Hm Hp Hs Hid.
  unfold generateGalaxy, release. rewrite Hp, Hg, Hm.
  set (w1 := mkWorld _ _ _ _ _ _ _ _).
  assert (Hs1 : galaxies (scene w1) = []) by now apply galaxies_remove_only.
  destruct (build_spec p w1 Hs1) as (Hone & Htr & Hd & pts' & Hp' & Hid').
  exists (build rnd THREE_Color uuid_draws p w1). repeat split; try assumption.
  - rewrite Htr. cbn. now rewrite <- app_assoc.
  - destruct Hone as (geo' & mat' & q & _ & _ & Hq & Hsc & _).
    exists pts'. rewrite Hp' in Hq. injection Hq as <-.
    repeat split; try assumption. cbn in Hid'. lia.
Qed.

Lemma add_camera_one_galaxy (w : World num) :
  one_galaxy w -> one_galaxy (add_camera w).
Proof.
  intros (geo & mat & pts & Hg & Hm & Hp & Hs & Hid).
  exists geo, mat, pts. unfold add_camera. cbn [geometry material points scene allocated].
  now rewrite galaxies_add_camera.
Qed.

(** Committed changes never fail and keep exactly one galaxy. *)
Lemma onFinishChange_one_galaxy (changes : list (Parameters num)) :
  forall w, one_galaxy w ->
    exists w', onFinishChange rnd THREE_Color uuid_draws changes w = Some w' /\ one_galaxy w'.
Proof.
  induction changes as [|p rest IH]; intros w Hw.
  - now exists w.
  - destruct Hw as (geo & mat & pts & Hg & Hm & Hp & Hs & Hid).
    destruct (later_call p w geo mat pts Hg Hm Hp Hs Hid)
      as (w1 & Hcall & Hone & _).
    cbn. rewrite Hcall. now apply IH.
Qed.

Lemma script_one_galaxy (p0 : Parameters num) (changes : list (Parameters num)) :
  exists w, script rnd THREE_Color uuid_draws p0 changes = Some w /\ one_galaxy w.
Proof.
  destruct (first_call p0) as (w1 & Hcall & Hone & _).
  unfold script. rewrite Hcall.
  apply onFinishChange_one_galaxy. now apply add_camera_one_galaxy.
Qed.
End SceneFacts.

(** ** Claims that hold for any arithmetic *)

Section AnyArithmetic.
Context {num : Type} {JS : JSNumber num}.
Variable rnd : nat -> num.
Variable THREE_Color : string -> Color num.
Local Open Scope js_scope.

(** The random sign is [1] or [-1]. *)
Lemma randomSign_cases (s : num) :
  randomSign s = of_nat 1 \/ randomSign s = - of_nat 1.
Proof. unfold randomSign. destruct (s <? half); [now left | now right]. Qed.

(** C1: for every particle index [i] below [count], a call of the generator
    that starts after [k0] draws stores in [positions], at slot [3i] the value
    [cos(branchAngle + spinAngle) * radius_i + jitterX], at slot [3i+1] the
    value [jitterY] alone, and at slot [3i+2] the value
    [sin(branchAngle + spinAngle) * radius_i + jitterZ], where [radius_i] is
    the first draw of the star times [parameters.radius], [spinAngle] is
    [radius_i * spin], and each jitter term is its own draw raised to
    [randomnessPower], times a sign that is [1] or [-1] (from one more draw),
    times [randomness], times [radius_i].  The stores go through the
    conversion of the typed array. *)
Theorem C1_position_formula (p : Parameters num) (k0 i : nat) :
  (i < count p)%nat ->
  let buf := fst (generate rnd THREE_Color p k0) in
  let k := firstDraw k0 i in
  let radius_i := rnd k * radius p in
  let spinAngle := radius_i * spin p in
  let jitter := fun u s : num =>
    Math_pow u (randomnessPower p) * randomSign s * randomness p * radius_i in
  let jitterX := jitter (rnd (k + 1)%nat) (rnd (k + 2)%nat) in
  let jitterY := jitter (rnd (k + 3)%nat) (rnd (k + 4)%nat) in
  let jitterZ := jitter (rnd (k + 5)%nat) (rnd (k + 6)%nat) in
  positions buf !! (3 * i)%nat =
    Some (toFloat32 (Math_cos (branchAngle p i + spinAngle) * radius_i + jitterX))
  /\ positions buf !! (3 * i + 1)%nat = Some (toFloat32 jitterY)
  /\ positions buf !! (3 * i + 2)%nat =
    Some (toFloat32 (Math_sin (branchAngle p i + spinAngle) * radius_i + jitterZ))
  /\ (forall s : num, randomSign s = of_nat 1 \/ randomSign s = - of_nat 1).
Proof.
  intros Hi buf k radius_i spinAngle0 jitter0 jitterX jitterY jitterZ.
  destruct (generate_slots rnd THREE_Color p k0 i Hi) as [Hp _].
  fold buf in Hp. fold k in Hp.
  assert (Hl : forall c, (c < 3)%nat ->
            slots (positions buf) (i * 3) !! c = positions buf !! (3 * i + c)%nat).
  { intros c Hc. unfold slots.
    rewrite lookup_take_lt, lookup_drop by lia. f_equal. lia. }
  pose proof (Hl 0%nat ltac:(lia)) as H0.
  pose proof (Hl 1%nat ltac:(lia)) as H1.
  pose proof (Hl 2%nat ltac:(lia)) as H2.
  rewrite Hp in H0, H1, H2. rewrite Nat.add_0_r in H0.
  repeat split.
  - rewrite <- H0. unfold k, firstDraw. cbn.
    unfold randomXAt, radiusAt, starRadius, spinAngle, jitter.
    subst jitterX jitter0 spinAngle0 radius_i k. unfold firstDraw.
    now rewrite !(Nat.add_comm (k0 + 7 * i)).
  - rewrite <- H1. cbn.
    unfold randomYAt, radiusAt, starRadius, jitter.
    subst jitterY jitter0 radius_i k. unfold firstDraw.
    now rewrite !(Nat.add_comm (k0 + 7 * i)).
  - rewrite <- H2. cbn.
    unfold randomZAt, radiusAt, starRadius, spinAngle, jitter.
    subst jitterZ jitter0 spinAngle0 radius_i k. unfold firstDraw.
    now rewrite !(Nat.add_comm (k0 + 7 * i)).
  - apply randomSign_cases.
Qed.

(** C2: for every parameter set with a particle [i] (so [count] is positive),
    one call of the generator gives a [positions] array and a [colors] array of
    length [3 * count] each, and the slots [3i], [3i+1], [3i+2] of the two
    arrays hold the position and the color of particle [i]. *)
Theorem C2_buffer_layout (p : Parameters num) (k0 i : nat) :
  (i < count p)%nat ->
  let buf := fst (generate rnd THREE_Color p k0) in
  length (positions buf) = (3 * count p)%nat
  /\ length (colors buf) = (3 * count p)%nat
  /\ slots (positions buf) (3 * i) =
       map toFloat32 (positionAt rnd p i (firstDraw k0 i))
  /\ slots (colors buf) (3 * i) =
       map toFloat32 (channels (mixedColorAt rnd THREE_Color p (firstDraw k0 i))).
Proof.
  intros Hi buf.
  destruct (generate_lengths rnd THREE_Color p k0) as [Lp Lc].
  destruct (generate_slots rnd THREE_Color p k0 i Hi) as [Sp Sc].
  rewrite (Nat.mul_comm 3 i). now repeat split.
Qed.

End AnyArithmetic.

(** ** Claims in exact arithmetic *)

Section ExactArithmetic.
Context {F : Single}.
Variable rnd : nat -> R.
Variable THREE_Color : string -> Color R.
Local Open Scope R_scope.

(** [Math.pow] of a draw, with an exponent of at least 1, lies in [0, 1]. *)
Lemma R_pow_unit (u y : R) : 0 <= u < 1 -> 1 <= y -> 0 <= R_pow u y <= 1.
Proof.
  intros [Hu0 Hu1] Hy. unfold R_pow.
  destruct (Req_dec_T u 0) as [->|Hne].
  - destruct (Req_dec_T y 0); lra.
  - unfold Rpower. split.
    + left. apply exp_pos.
    + left. rewrite <- exp_0. apply exp_increasing.
      assert (Hln : ln u < 0).
      { rewrite <- ln_1. apply ln_increasing; lra. }
      nra.
Qed.

Lemma randomSign_real (s : R) : randomSign s = 1 \/ randomSign s = -1.
Proof.
  destruct (randomSign_cases s) as [->| ->]; cbn; [left | right]; lra.
Qed.

(** The radius of a star lies between 0 and [parameters.radius]. *)
Lemma starRadius_range (p : Parameters R) (u : R) :
  0 <= u < 1 -> 0 <= radius p -> 0 <= starRadius p u <= radius p.
Proof. intros Hu Hr. unfold starRadius. cbn. nra. Qed.


(** A jitter term is at most [randomness * radius_i] in absolute value. *)
Lemma jitter_bound (p : Parameters R) (u s ri : R) :
  0 <= u < 1 -> 1 <= randomnessPower p -> 0 <= randomness p -> 0 <= ri ->
  Rabs (jitter p u s ri) <= randomness p * ri.
Proof.
  intros Hu Hp Hr Hri. unfold jitter. cbn.
  pose proof (R_pow_unit u (randomnessPower p) Hu Hp) as [Hp0 Hp1].
  rewrite !Rabs_mult.
  rewrite (Rabs_pos_eq (R_pow u (randomnessPower p))) by assumption.
  rewrite (Rabs_pos_eq (randomness p)) by assumption.
  rewrite (Rabs_pos_eq ri) by assumption.
  assert (Hs : Rabs (randomSign s) = 1).
  { destruct (randomSign_real s) as [-> | ->];
      unfold Rabs; destruct (Rcase_abs _); lra. }
  rewrite Hs.
  assert (Hprod : 0 <= randomness p * ri) by now apply Rmult_le_pos.
  rewrite Rmult_1_r, Rmult_assoc.
  rewrite <- (Rmult_1_l (randomness p * ri)) at 2.
  apply Rmult_le_compat_r; assumption.
Qed.

Lemma jitter_zero (p : Parameters R) (u s ri : R) :
  randomness p = 0 -> jitter p u s ri = 0.
Proof. intros Hr. unfold jitter. cbn. rewrite Hr. ring. Qed.

(** C3: for every particle index [i] and every draw of the random source in
    [0, 1), the radius of the particle, which is its first draw times
    [parameters.radius], lies between 0 and [parameters.radius], given that
    [parameters.radius] is not negative. *)
Theorem C3_radius_range (p : Parameters R) (k0 i : nat) :
  uniform rnd -> 0 <= radius p ->
  radiusAt rnd p (firstDraw k0 i) = rnd (firstDraw k0 i) * radius p /\
  0 <= radiusAt rnd p (firstDraw k0 i) <= radius p.
Proof.
  intros Hu Hr. split; [reflexivity|].
  apply starRadius_range; [apply Hu | assumption].
Qed.

(** The branch angle with at least one branch, and its period. *)
Lemma branchAngle_real (p : Parameters R) (i : nat) :
  (1 <= branches p)%nat ->
  branchAngle p i = INR (i mod branches p) / INR (branches p) * (2 * PI).
Proof.
  intros Hb. unfold branchAngle, rem.
  destruct (branches p) as [|b] eqn:E; [lia|].
  cbn [of_nat mul div Real Math_PI]. replace (INR 2) with 2 by (cbn; lra). ring.
Qed.

Lemma branchAngle_period {num : Type} {JS : JSNumber num}
    (p : Parameters num) (i : nat) :
  branchAngle p (i + branches p) = branchAngle p i.
Proof.
  unfold branchAngle, rem. destruct (branches p) as [|b]; [reflexivity|].
  replace (i + S b)%nat with (i + 1 * S b)%nat by lia.
  now rewrite Nat.Div0.mod_add.
Qed.

(** C4: the branch angle of particle [i] does not depend on the random source
    (it is a function of the parameters and of [i] alone); with at least two
    branches it is [(i mod branches) / branches * 2 PI], and the particles [i]
    and [i + branches] have the same branch angle. *)
Theorem C4_branch_round_robin (p : Parameters R) (i : nat) :
  (2 <= branches p)%nat ->
  branchAngle p i = INR (i mod branches p) / INR (branches p) * (2 * PI) /\
  branchAngle p (i + branches p) = branchAngle p i.
Proof.
  intros Hb. split; [apply branchAngle_real; lia | apply branchAngle_period].
Qed.

(** The slices of star [i] in exact arithmetic: the conversions of its
    position and of its color. *)
Lemma position_slice (p : Parameters R) (k0 i : nat) :
  (i < count p)%nat ->
  slots (positions (fst (generate rnd THREE_Color p k0))) (3 * i)
  = map fround (positionAt rnd p i (firstDraw k0 i)).
Proof.
  intros Hi.
  destruct (generate_slots rnd THREE_Color p k0 i Hi) as [Hp _].
  now rewrite Nat.mul_comm in Hp.
Qed.

Lemma color_slice (p : Parameters R) (k0 i : nat) :
  (i < count p)%nat ->
  slots (colors (fst (generate rnd THREE_Color p k0))) (3 * i)
  = map fround (channels (mixedColorAt rnd THREE_Color p (firstDraw k0 i))).
Proof.
  intros Hi.
  destruct (generate_slots rnd THREE_Color p k0 i Hi) as [_ Hc].
  now rewrite Nat.mul_comm in Hc.
Qed.

(** The conversion of a number of an interval lies between the conversions of
    the ends. *)
Lemma fround_between (x lo hi : R) :
  lo <= x <= hi -> fround lo <= fround x <= fround hi.
Proof. intros [Hl Hh]. split; now apply fround_monotone. Qed.

(** C5: with [parameters.radius] not zero, the three color slots of particle
    [i] hold, converted to single precision by the store, the linear
    interpolation from the inside color to the outside color by the fraction
    [radius_i / parameters.radius]; when that fraction is 0 they hold the
    inside color and when it is 1 they hold the outside color (converted),
    which are the values of the interpolation at 0 and at 1. *)
Theorem C5_color_interpolation (p : Parameters R) (k0 i : nat) :
  radius p <> 0 -> (i < count p)%nat ->
  let buf := fst (generate rnd THREE_Color p k0) in
  let colorInside := THREE_Color (insideColor p) in
  let colorOutside := THREE_Color (outsideColor p) in
  let t := radiusAt rnd p (firstDraw k0 i) / radius p in
  slots (colors buf) (3 * i) =
    [ fround (r colorInside + (r colorOutside - r colorInside) * t);
      fround (g colorInside + (g colorOutside - g colorInside) * t);
      fround (b colorInside + (b colorOutside - b colorInside) * t) ]
  /\ (t = 0 -> slots (colors buf) (3 * i) = map fround (channels colorInside))
  /\ (t = 1 -> slots (colors buf) (3 * i) = map fround (channels colorOutside))
  /\ lerp (clone colorInside) colorOutside 0 = colorInside
  /\ lerp (clone colorInside) colorOutside 1 = colorOutside.
Proof.
  intros Hr Hi buf cI cO t.
  assert (E0 : lerp (clone cI) cO 0 = cI)
    by (destruct cI, cO; unfold lerp, clone; cbn; f_equal; ring).
  assert (E1 : lerp (clone cI) cO 1 = cO)
    by (destruct cI, cO; unfold lerp, clone; cbn; f_equal; ring).
  assert (Hs : slots (colors buf) (3 * i) =
    [ fround (r cI + (r cO - r cI) * t); fround (g cI + (g cO - g cI) * t);
      fround (b cI + (b cO - b cI) * t) ])
    by (unfold buf; now rewrite color_slice).
  split; [exact Hs|].
  split; [|split; [|split; assumption]];
    intros Ht; rewrite Hs, Ht; unfold channels; cbn [map];
    repeat f_equal; ring.
Qed.


(** C10, as amended: with [randomnessPower] at least 1, [randomness] and
    [parameters.radius] not negative and draws in [0, 1), each of the three
    jitter terms of a particle is at most [randomness * radius_i] in absolute
    value, itself at most [randomness * radius]; the stored y coordinate is the
    conversion to single precision of the jitter term of y, and lies between
    the conversions of [- randomness * radius] and of [randomness * radius];
    and with [randomness = 0] the three jitter terms are 0. *)
Theorem C10_jitter_bounds (p : Parameters R) (k0 i : nat) :
  uniform rnd -> 1 <= randomnessPower p -> 0 <= randomness p ->
  0 <= radius p -> (i < count p)%nat ->
  let buf := fst (generate rnd THREE_Color p k0) in
  let k := firstDraw k0 i in
  let radius_i := radiusAt rnd p k in
  Rabs (randomXAt rnd p k) <= randomness p * radius_i
  /\ Rabs (randomYAt rnd p k) <= randomness p * radius_i
  /\ Rabs (randomZAt rnd p k) <= randomness p * radius_i
  /\ randomness p * radius_i <= randomness p * radius p
  /\ positions buf !! (3 * i + 1)%nat = Some (fround (randomYAt rnd p k))
  /\ fround (- (randomness p * radius p)) <= fround (randomYAt rnd p k)
     <= fround (randomness p * radius p)
  /\ (randomness p = 0 ->
      randomXAt rnd p k = 0 /\ randomYAt rnd p k = 0 /\ randomZAt rnd p k = 0).
Proof.
  intros Hu Hp Hn Hr Hi buf k radius_i.
  destruct (starRadius_range p (rnd k) (Hu k) Hr) as [Hr0 Hr1].
  fold (radiusAt rnd p k) in Hr0, Hr1. fold radius_i in Hr0, Hr1.
  assert (HX : Rabs (randomXAt rnd p k) <= randomness p * radius_i)
    by (apply jitter_bound; auto).
  assert (HY : Rabs (randomYAt rnd p k) <= randomness p * radius_i)
    by (apply jitter_bound; auto).
  assert (HZ : Rabs (randomZAt rnd p k) <= randomness p * radius_i)
    by (apply jitter_bound; auto).
  assert (Hle : randomness p * radius_i <= randomness p * radius p)
    by now apply Rmult_le_compat_l.
  split; [exact HX|]. split; [exact HY|]. split; [exact HZ|].
  split; [exact Hle|]. split; [|split].
  - pose proof (position_slice p k0 i Hi) as Hs.
    fold buf in Hs. fold k in Hs.
    assert (Hl : slots (positions buf) (3 * i) !! 1%nat
                 = positions buf !! (3 * i + 1)%nat).
    { unfold slots. rewrite lookup_take_lt, lookup_drop by lia. reflexivity. }
    rewrite <- Hl, Hs. reflexivity.
  - apply fround_between. unfold Rabs in HY.
    destruct (Rcase_abs (randomYAt rnd p k)); lra.
  - intros H0. unfold randomXAt, randomYAt, randomZAt.
    now rewrite !jitter_zero.
Qed.
End ExactArithmetic.

(** ** Claims in binary64 *)

Section Binary64Arithmetic.
Variables (cos sin : float -> float) (pow : float -> float -> float).
Variable rnd : nat -> float.
Variable THREE_Color : string -> Color float.

Abbreviation JS64 := (Binary64 cos sin pow).

(** A float that compares equal to zero is one of the two zeros. *)
Lemma is_zero_shape (z : float) :
  PrimFloat.is_zero z = true -> exists s : bool, Prim2SF z = S754_zero s.
Proof.
  unfold PrimFloat.is_zero. rewrite FloatAxioms.eqb_spec.
  destruct (Prim2SF z) as [s|s| |s m e]; cbn; try discriminate.
  - intros _. now exists s.
  - destruct s; discriminate.
  - destruct s; discriminate.
Qed.

(** Whatever the draw, its product with a zero divided by that zero is NaN. *)
Lemma zero_over_zero (u z : float) :
  PrimFloat.is_zero z = true -> PrimFloat.div (PrimFloat.mul u z) z = nan.
Proof.
  intros Hz. destruct (is_zero_shape z Hz) as [s Hs].
  rewrite <- (SF2Prim_Prim2SF (PrimFloat.div (PrimFloat.mul u z) z)).
  rewrite FloatAxioms.div_spec, FloatAxioms.mul_spec, Hs.
  destruct (Prim2SF u) as [su|su| |su m e]; reflexivity.
Qed.

(** A draw in [0, 1) times a zero is a zero. *)
Lemma draw_times_zero (u z : float) :
  PrimFloat.leb 0 u = true -> PrimFloat.ltb u 1 = true ->
  PrimFloat.is_zero z = true -> PrimFloat.is_zero (PrimFloat.mul u z) = true.
Proof.
  intros H0 H1 Hz. destruct (is_zero_shape z Hz) as [s Hs].
  rewrite FloatAxioms.leb_spec in H0. rewrite FloatAxioms.ltb_spec in H1.
  unfold PrimFloat.is_zero. rewrite FloatAxioms.eqb_spec, FloatAxioms.mul_spec, Hs.
  destruct (Prim2SF u) as [su|su| |su m e].
  - destruct su, s; reflexivity.
  - destruct su; discriminate.
  - discriminate.
  - destruct su, s; reflexivity.
Qed.

Lemma mul_nan (x : float) : PrimFloat.mul x nan = nan.
Proof.
  rewrite <- (SF2Prim_Prim2SF (PrimFloat.mul x nan)), FloatAxioms.mul_spec.
  change (Prim2SF nan) with S754_nan.
  destruct (Prim2SF x); reflexivity.
Qed.

Lemma add_nan (x : float) : PrimFloat.add x nan = nan.
Proof.
  rewrite <- (SF2Prim_Prim2SF (PrimFloat.add x nan)), FloatAxioms.add_spec.
  change (Prim2SF nan) with S754_nan.
  destruct (Prim2SF x); reflexivity.
Qed.

(** An interpolation by NaN is NaN on every channel. *)
Lemma lerp_nan (c c' : Color float) :
  lerp (JS := JS64) (clone c) c' nan = mkColor nan nan nan.
Proof.
  unfold lerp, clone. cbn. now rewrite !mul_nan, !add_nan.
Qed.

(** C8: when [parameters.radius] is zero, the radius of a particle whose draw
    is in [0, 1) is a zero, and the fraction [radius_i / parameters.radius]
    that the generator hands to the interpolation is NaN, whatever the draw;
    nothing on the way replaces the zero radius, and the three color slots of
    the particle receive NaN. *)
Theorem C8_zero_radius_nan (p : Parameters float) (k0 i : nat) :
  PrimFloat.is_zero (radius p) = true -> i < count p ->
  let buf := fst (generate (JS := JS64) rnd THREE_Color p k0) in
  let u := rnd (firstDraw k0 i) in
  let radius_i := radiusAt (JS := JS64) rnd p (firstDraw k0 i) in
  radius_i = PrimFloat.mul u (radius p)
  /\ (PrimFloat.leb 0 u = true -> PrimFloat.ltb u 1 = true ->
      PrimFloat.is_zero radius_i = true)
  /\ fraction (JS := JS64) p radius_i = PrimFloat.div radius_i (radius p)
  /\ PrimFloat.is_nan (fraction (JS := JS64) p radius_i) = true
  /\ slots (colors buf) (3 * i) = [nan; nan; nan].
Proof.
  intros Hz Hi buf u radius_i.
  assert (Hf : fraction (JS := JS64) p radius_i = nan)
    by (apply zero_over_zero; assumption).
  repeat split; try reflexivity.
  - intros H0 H1. now apply draw_times_zero.
  - now rewrite Hf.
  - destruct (generate_slots (JS := JS64) rnd THREE_Color p k0 i Hi) as [_ Hc].
    fold buf in Hc. rewrite Nat.mul_comm in Hc. rewrite Hc.
    unfold mixedColorAt. fold radius_i. rewrite Hf, lerp_nan. reflexivity.
Qed.
End Binary64Arithmetic.

(** ** Examples *)

Lemma alternating_uniform : uniform alternating.
Proof.
  intros k. unfold alternating. destruct (Nat.even k); lra.
Qed.

Example float32_rounds :
  float32 0x1.999999999999ap-4%float = 0x1.99999ap-4%float.
Proof. reflexivity. Qed.

Example float32_nan : float32 nan = nan.
Proof. reflexivity. Qed.

Example hexColor_orange :
  hexColor "#ff6030" = mkColor (255 / 255)%R (96 / 255)%R (48 / 255)%R.
Proof. reflexivity. Qed.

(** One star with a zero radius, in binary64: the position is the origin and
    the color is NaN on every channel. *)
Example collapsed_star :
  generate (JS := Binary64 series_cos series_sin cube)
    alternating64 defaultColor64 (collapsed 1) 0
  = (mkBuffers [0%float; 0%float; 0%float] [nan; nan; nan], 7).
Proof. vm_compute. reflexivity. Qed.

(** The events of the first call followed by one committed change. *)
Example two_calls_trace :
  option_map trace
    (script (JS := Binary64 series_cos series_sin cube)
       alternating64 defaultColor64 4 (collapsed 1) [collapsed 1])
  = Some [NewGeometry 0; NewMaterial 1; NewPoints 2; SceneAdd 2;
          GeometryDispose 0; MaterialDispose 1; SceneRemove 2;
          NewGeometry 3; NewMaterial 4; NewPoints 5; SceneAdd 5].
Proof. vm_compute. reflexivity. Qed.

(** In binary64 a draw below 1 times the smallest positive radius rounds to
    that radius. *)
Example binary64_radius_reached :
  starRadius (JS := Binary64 series_cos series_sin cube)
    (mkParameters 1 0.015625%float 0x1p-1074%float 3 1%float 0.25%float
       3%float "#ff6030"%string "#1b3984"%string) 0.75%float
  = 0x1p-1074%float.
Proof. reflexivity. Qed.

(** C1 at the third star of a hundred, with the default parameters. *)
Lemma C1_position_formula_example :
  (2 < count (defaults 100))%nat /\
  positions (fst (generate alternating hexColor (defaults 100) 0)) !! 7%nat
  = Some (fround (randomYAt alternating (defaults 100) 14)).
Proof.
  split; [cbn; lia|].
  exact (proj1 (proj2 (C1_position_formula alternating hexColor (defaults 100)
                         0 2 ltac:(cbn; lia)))).
Defined.

(** C2 at the third star of a hundred. *)
Lemma C2_buffer_layout_example :
  (2 < count (defaults 100))%nat /\
  length (positions (fst (generate alternating hexColor (defaults 100) 0)))
  = 300%nat /\
  length (colors (fst (generate alternating hexColor (defaults 100) 0)))
  = 300%nat.
Proof.
  split; [cbn; lia|].
  pose proof (C2_buffer_layout alternating hexColor (defaults 100) 0 2
                ltac:(cbn; lia)) as H.
  exact (conj (proj1 H) (proj1 (proj2 H))).
Defined.

(** C3 at the third star, with the default radius 5. *)
Lemma C3_radius_range_example :
  uniform alternating /\ (0 <= radius (defaults 100))%R /\
  (0 <= radiusAt alternating (defaults 100) (firstDraw 0 2)
     <= radius (defaults 100))%R.
Proof.
  assert (Hr : (0 <= radius (defaults 100))%R) by (cbn; lra).
  split; [exact alternating_uniform|]. split; [exact Hr|].
  exact (proj2 (C3_radius_range alternating (defaults 100) 0 2
                  alternating_uniform Hr)).
Defined.

(** C4 with the three default branches: stars 4 and 7 share a branch. *)
Lemma C4_branch_round_robin_example :
  (2 <= branches (defaults 100))%nat /\
  branchAngle (defaults 100) (4 + 3) = branchAngle (defaults 100) 4.
Proof.
  assert (Hb : (2 <= branches (defaults 100))%nat) by (cbn; lia).
  split; [exact Hb|].
  exact (proj2 (C4_branch_round_robin (defaults 100) 4 Hb)).
Defined.

(** C5 at the third star of a hundred, with the default radius 5. *)
Lemma C5_color_interpolation_example :
  radius (defaults 100) <> 0%R /\ (2 < count (defaults 100))%nat /\
  slots (colors (fst (generate alternating hexColor (defaults 100) 0))) 6
  = map fround (channels (mixedColorAt alternating hexColor (defaults 100) 14)).
Proof.
  assert (Hr : radius (defaults 100) <> 0%R) by (cbn; lra).
  split; [exact Hr|]. split; [cbn; lia|].
  exact (proj1 (C5_color_interpolation alternating hexColor (defaults 100)
                  0 2 Hr ltac:(cbn; lia))).
Defined.

(** C8 at the third star of a hundred, with a zero radius. *)
Lemma C8_zero_radius_nan_example :
  PrimFloat.is_zero (radius (collapsed 100)) = true /\ (2 < count (collapsed 100))%nat /\
  slots (colors (fst (generate (JS := Binary64 series_cos series_sin cube)
                        alternating64 defaultColor64 (collapsed 100) 0))) 6
  = [nan; nan; nan].
Proof.
  split; [reflexivity|]. split; [cbn; lia|].
  exact (proj2 (proj2 (proj2 (proj2
    (C8_zero_radius_nan series_cos series_sin cube alternating64 defaultColor64
       (collapsed 100) 0 2 eq_refl ltac:(cbn; lia)))))).
Defined.



(** C10, as stated, fails in binary64: with [radius] 0.1, [randomness] 1,
    [randomnessPower] 1 and draws just below 1, the stored y coordinate is
    larger in absolute value than [randomness * radius], the store to single
    precision having rounded it away from zero. *)
Lemma C10_stored_y_above_bound :
  PrimFloat.leb 0 nearly_one = true /\ PrimFloat.ltb nearly_one 1 = true /\
  PrimFloat.leb 1 (randomnessPower tight) = true /\
  PrimFloat.leb 0 (randomness tight) = true /\
  PrimFloat.leb 0 (radius tight) = true /\
  exists y : float,
    positions (fst (generate (JS := Binary64 series_cos series_sin first_power)
                      always_nearly_one hexColor64 tight 0)) !! 1%nat = Some y /\
    PrimFloat.ltb (PrimFloat.mul (randomness tight) (radius tight))
      (PrimFloat.abs y) = true.
Proof.
  repeat (split; [reflexivity|]).
  exists (-0x1.99999ap-4)%float. split; vm_compute; reflexivity.
Qed.

(** C10, as amended, at the third star of a hundred, with the default
    parameters. *)
Lemma C10_jitter_bounds_example :
  uniform alternating /\ (1 <= randomnessPower (defaults 100))%R /\
  (0 <= randomness (defaults 100))%R /\ (0 <= radius (defaults 100))%R /\
  (2 < count (defaults 100))%nat /\
  (Rabs (randomYAt alternating (defaults 100) (firstDraw 0 2))
     <= randomness (defaults 100)
        * radiusAt alternating (defaults 100) (firstDraw 0 2))%R /\
  (fround (- (randomness (defaults 100) * radius (defaults 100)))
     <= fround (randomYAt alternating (defaults 100) (firstDraw 0 2))
     <= fround (randomness (defaults 100) * radius (defaults 100)))%R.
Proof.
  assert (Hp : (1 <= randomnessPower (defaults 100))%R) by (cbn; lra).
  assert (Hn : (0 <= randomness (defaults 100))%R) by (cbn; lra).
  assert (Hr : (0 <= radius (defaults 100))%R) by (cbn; lra).
  split; [exact alternating_uniform|]. split; [exact Hp|].
  split; [exact Hn|]. split; [exact Hr|]. split; [cbn; lia|].
  pose proof (C10_jitter_bounds alternating hexColor (defaults 100)
                0 2 alternating_uniform Hp Hn Hr ltac:(cbn; lia)) as H.
  exact (conj (proj1 (proj2 H))
              (proj1 (proj2 (proj2 (proj2 (proj2 (proj2 H))))))).
Defined.

(** ** More on the generator, for any arithmetic *)

Section GeneratorMore.
Context {num : Type} {JS : JSNumber num}.
Variable THREE_Color : string -> Color num.

(** The loop reads the random source at the ranks of its own draws only. *)
Lemma stars_window (rnd rnd' : nat -> num) (p : Parameters num)
    (cI cO : Color num) (n : nat) :
  forall (i : nat) (buf : Buffers) (k : nat),
    (forall j : nat, k <= j < k + 7 * n -> rnd j = rnd' j) ->
    stars rnd p cI cO n i buf k = stars rnd' p cI cO n i buf k.
Proof.
  induction n as [|n IH]; intros i buf k Hw; [reflexivity|].
  rewrite !stars_step.
  assert (Hs : star rnd p cI cO i buf k = star rnd' p cI cO i buf k).
  { rewrite !star_unfold. cbn zeta.
    rewrite (Hw k), (Hw (1 + k)), (Hw (2 + k)), (Hw (3 + k)), (Hw (4 + k)),
            (Hw (5 + k)), (Hw (6 + k)) by lia.
    reflexivity. }
  rewrite Hs. apply IH. intros j Hj. apply Hw. lia.
Qed.


(** X2: the arrays of a call depend on the random source through the
    [7 * count] draws of that call only: two sources that agree on the ranks
    from [k0] to [k0 + 7 * count - 1] give the same arrays. *)
Theorem X2_draw_window (rnd rnd' : nat -> num) (p : Parameters num) (k0 : nat) :
  (forall j : nat, k0 <= j < k0 + 7 * count p -> rnd j = rnd' j) ->
  generate rnd THREE_Color p k0 = generate rnd' THREE_Color p k0.
Proof. intros Hw. unfold generate. now apply stars_window. Qed.
End GeneratorMore.

(** ** More on regeneration, for any arithmetic *)

Section SceneMore.
Context {num : Type} {JS : JSNumber num}.
Variable rnd : nat -> num.
Variable THREE_Color : string -> Color num.
Variable uuid_draws : nat.

(** What [build] makes of a state, field by field. *)
Lemma build_fields (p : Parameters num) (w : World num) :
  let pts := built rnd THREE_Color p (allocated w)
               (random_calls w + uuid_draws) in
  build rnd THREE_Color uuid_draws p w =
  mkWorld (Some (points_geometry pts)) (Some (points_material pts)) (Some pts)
    (scene_add (Galaxy pts) (scene w)) (disposed w) (allocated w + 3)
    (7 * count p + (random_calls w + uuid_draws) + 2 * uuid_draws)
    (trace w ++ creating (allocated w)).
Proof.
  intros pts. unfold build.
  pose proof (generate_calls rnd THREE_Color p (random_calls w + uuid_draws))
    as Hc.
  subst pts. unfold built.
  destruct (generate rnd THREE_Color p (random_calls w + uuid_draws))
    as [buf calls].
  cbn in Hc. now subst calls.
Qed.

(** The first call and the camera lead to a settled state. *)
Lemma first_settled (p0 : Parameters num) :
  exists w,
    generateGalaxy rnd THREE_Color uuid_draws p0 initial = Some w /\
    settled rnd THREE_Color uuid_draws p0 0 uuid_draws true (add_camera w).
Proof.
  exists (build rnd THREE_Color uuid_draws p0 initial). split; [reflexivity|].
  rewrite build_fields. unfold settled, add_camera. cbn.
  repeat split; try reflexivity; try lia.
  - apply NoDup_nil_2.
  - intros Hin. now apply elem_of_nil in Hin.
  - intros (j & Hj & _). lia.
Qed.

(** A call from a settled state leads to the next settled state. *)
Lemma next_settled (p q : Parameters num) (n k : nat) (first : bool)
    (w : World num) :
  settled rnd THREE_Color uuid_draws p n k first w ->
  exists w',
    generateGalaxy rnd THREE_Color uuid_draws q w = Some w' /\
    settled rnd THREE_Color uuid_draws q (n + 1)
      (k + 7 * count p + 3 * uuid_draws) false w'.
Proof.
  intros (Hg & Hm & Hp & Hs & Ha & Hr & Hn & Hl & Hd).
  unfold generateGalaxy, release. rewrite Hp, Hg, Hm.
  eexists. split; [reflexivity|].
  rewrite build_fields. cbn [allocated random_calls scene disposed trace].
  rewrite Ha, Hr.
  replace (3 * n + 3) with (3 * (n + 1)) by lia.
  replace (k + 7 * count p + 2 * uuid_draws + uuid_draws)
    with (k + 7 * count p + 3 * uuid_draws) by lia.
  unfold settled. cbn [geometry material points scene allocated random_calls disposed].
  assert (Hsc : scene_remove (Galaxy (built rnd THREE_Color p (3 * n) k)) (scene w)
                = [Camera]).
  { rewrite Hs. destruct first; cbn; now rewrite Nat.eqb_refl. }
  rewrite Hsc.
  repeat split; try reflexivity; try lia.
  - cbn. apply NoDup_cons. split.
    + rewrite elem_of_cons, Hd. intros [E | (j & Hj & [E | E])]; lia.
    + apply NoDup_cons. split; [|assumption].
      rewrite Hd. intros (j & Hj & [E | E]); lia.
  - cbn. lia.
  - cbn. rewrite !elem_of_cons, Hd.
    intros [E | [E | (j & Hj & E)]].
    + exists n. lia.
    + exists n. lia.
    + exists j. lia.
  - cbn. rewrite !elem_of_cons, Hd.
    intros (j & Hj & E).
    destruct (Nat.eq_dec j n) as [-> | Hne].
    + lia.
    + right. right. exists j. lia.
Qed.

(** The last element of a list that is not empty, whatever the default. *)
Lemma last_cons {A : Type} (rest : list A) :
  forall p q : A, List.last (q :: rest) p = List.last rest q.
Proof.
  induction rest as [|x rest IH]; intros p q; [reflexivity|].
  change (List.last (q :: x :: rest) p) with (List.last (x :: rest) p).
  now rewrite (IH p x), (IH q x).
Qed.

(** The committed changes, from a settled state. *)
Lemma changes_settled (changes : list (Parameters num)) :
  forall (p : Parameters num) (n k : nat) (first : bool) (w : World num),
    settled rnd THREE_Color uuid_draws p n k first w ->
    exists w' k',
      onFinishChange rnd THREE_Color uuid_draws changes w = Some w' /\
      settled rnd THREE_Color uuid_draws (List.last changes p) (n + length changes)
        k' (first && bool_decide (changes = [])) w'.
Proof.
  induction changes as [|q rest IH]; intros p n k first w Hw.
  - exists w, k. split; [reflexivity|].
    cbn. rewrite !Nat.add_0_r, andb_true_r. exact Hw.
  - destruct (next_settled p q n k first w Hw) as (w1 & Hc & H1).
    destruct (IH q (n + 1) _ false w1 H1) as (w' & k' & Hr & H').
    exists w', k'. split; [cbn; now rewrite Hc|].
    rewrite last_cons.
    replace (n + length (q :: rest)) with (n + 1 + length rest) by (cbn; lia).
    rewrite andb_false_r. exact H'.
Qed.

(** The script always ends in a settled state. *)
Lemma script_settled (p0 : Parameters num) (changes : list (Parameters num)) :
  exists w k,
    script rnd THREE_Color uuid_draws p0 changes = Some w /\
    settled rnd THREE_Color uuid_draws (List.last changes p0) (length changes)
      k (bool_decide (changes = [])) w.
Proof.
  destruct (first_settled p0) as (w1 & Hc & H1).
  destruct (changes_settled changes p0 0 _ true (add_camera w1) H1)
    as (w & k & Hr & Hw).
  exists w, k. split; [unfold script; now rewrite Hc|]. exact Hw.
Qed.

(** C7: the first call of [generateGalaxy] releases nothing: its events are
    the four of a creation, nothing is disposed, and its galaxy is the only one
    attached.  After the first call, the camera and any list of committed
    changes, [points] names a galaxy made of the geometry and the material that
    [geometry] and [material] name, neither of them disposed, and that galaxy
    is the only one attached to the scene.  The next call, whatever the
    parameters, first disposes that geometry and that material and removes
    that galaxy from the scene, then creates a new geometry, a new material
    and a new galaxy made of them, three objects that did not exist before,
    sets the three variables to them and attaches the new galaxy, which is
    again the only one; nothing is disposed twice and the new geometry and
    material are not disposed. *)
Theorem C7_dispose_before_replace (p0 : Parameters num)
    (changes : list (Parameters num)) (p : Parameters num) :
  (exists w1 pts1,
     generateGalaxy rnd THREE_Color uuid_draws p0 initial = Some w1 /\
     trace w1 = creating 0 /\ disposed w1 = [] /\
     points w1 = Some pts1 /\ galaxies (scene w1) = [pts1])
  /\
  (exists w pts,
     script rnd THREE_Color uuid_draws p0 changes = Some w /\
     points w = Some pts /\
     geometry w = Some (points_geometry pts) /\
     material w = Some (points_material pts) /\
     galaxies (scene w) = [pts] /\
     (geometry_id (points_geometry pts) ∉ disposed w) /\
     (material_id (points_material pts) ∉ disposed w) /\
     exists w' pts',
       generateGalaxy rnd THREE_Color uuid_draws p w = Some w' /\
       trace w' = trace w ++ replacing (points_geometry pts)
                               (points_material pts) pts (allocated w) /\
       disposed w' = material_id (points_material pts)
                     :: geometry_id (points_geometry pts) :: disposed w /\
       NoDup (disposed w') /\
       points w' = Some pts' /\
       geometry w' = Some (points_geometry pts') /\
       material w' = Some (points_material pts') /\
       galaxies (scene w') = [pts'] /\
       geometry_id (points_geometry pts') = allocated w /\
       material_id (points_material pts') = allocated w + 1 /\
       points_id pts' = allocated w + 2 /\
       geometry_id (points_geometry pts) < allocated w /\
       material_id (points_material pts) < allocated w /\
       points_id pts < allocated w /\
       (geometry_id (points_geometry pts') ∉ disposed w') /\
       (material_id (points_material pts') ∉ disposed w')).
Proof.
  split.
  - destruct (first_call rnd THREE_Color uuid_draws p0)
      as (w1 & Hc & (geo & mat & pts & _ & _ & Hp & Hs & _) & Ht & Hd).
    now exists w1, pts.
  - destruct (script_settled p0 changes) as (w & k & Hw & Hst).
    destruct (next_settled _ p _ _ _ _ Hst) as (w' & Hc & Hst').
    destruct Hst as (Hg & Hm & Hp & Hs & Ha & Hr & Hn & Hl & Hd).
    destruct Hst' as (Hg' & Hm' & Hp' & Hs' & Ha' & Hr' & Hn' & Hl' & Hd').
    set (pts := built rnd THREE_Color (List.last changes p0)
                  (3 * length changes) k) in *.
    set (pts' := built rnd THREE_Color p (3 * (length changes + 1))
                   (k + 7 * count (List.last changes p0) + 3 * uuid_draws)) in *.
    assert (Hgal : galaxies (scene w) = [pts])
      by (rewrite Hs; now destruct (bool_decide _)).
    assert (Hid : points_id pts < allocated w) by (rewrite Ha; cbn; lia).
    destruct (later_call rnd THREE_Color uuid_draws p w _ _ pts Hg Hm Hp Hgal Hid)
      as (w2 & Hc2 & _ & Ht & Hdis & _).
    rewrite Hc in Hc2. injection Hc2 as <-.
    exists w, pts. split; [exact Hw|]. split; [exact Hp|].
    split; [exact Hg|]. split; [exact Hm|]. split; [exact Hgal|].
    split; [rewrite Hd; cbn; intros (j & Hj & [E | E]); lia|].
    split; [rewrite Hd; cbn; intros (j & Hj & [E | E]); lia|].
    exists w', pts'. split; [exact Hc|]. split; [exact Ht|].
    split; [exact Hdis|]. split; [exact Hn'|]. split; [exact Hp'|].
    split; [exact Hg'|]. split; [exact Hm'|].
    split; [now rewrite Hs'|].
    rewrite Ha. cbn.
    repeat split; try lia.
    + rewrite Hd'. intros (j & Hj & [E | E]); lia.
    + rewrite Hd'. intros (j & Hj & [E | E]); lia.
Qed.

(** X3: after the first call and [n] committed changes, [3 (n + 1)] objects
    have been allocated, and the disposed resources are the geometry and the
    material of each of the [n] earlier calls, each of them once: nothing is
    disposed twice, no earlier geometry or material is left undisposed, and
    the geometry and the material in use are not disposed. *)
Theorem X3_disposed_resources (p0 : Parameters num)
    (changes : list (Parameters num)) :
  exists w geo mat,
    script rnd THREE_Color uuid_draws p0 changes = Some w /\
    geometry w = Some geo /\ material w = Some mat /\
    allocated w = 3 * (length changes + 1) /\
    NoDup (disposed w) /\
    length (disposed w) = 2 * length changes /\
    (forall id : nat,
       id ∈ disposed w <->
       exists j : nat, j < length changes /\ (id = 3 * j \/ id = 3 * j + 1)) /\
    geometry_id geo = 3 * length changes /\
    material_id mat = 3 * length changes + 1 /\
    (geometry_id geo ∉ disposed w) /\ (material_id mat ∉ disposed w).
Proof.
  destruct (script_settled p0 changes)
    as (w & k & Hs & Hg & Hm & Hp & Hsc & Ha & Hr & Hn & Hl & Hd).
  do 3 eexists. split; [exact Hs|]. split; [exact Hg|]. split; [exact Hm|].
  repeat split; try assumption; try reflexivity; try lia.
  - apply Hd.
  - apply Hd.
  - cbn. rewrite Hd. intros (j & Hj & [E | E]); lia.
  - cbn. rewrite Hd. intros (j & Hj & [E | E]); lia.
Qed.

(** X4: after the first call and any committed changes, the children of the
    scene are the camera and the galaxy that [points] names, and nothing else:
    the galaxy first when no change was committed, the camera first
    afterwards.  Regeneration never detaches the camera. *)
Theorem X4_scene_children (p0 : Parameters num)
    (changes : list (Parameters num)) :
  exists w pts,
    script rnd THREE_Color uuid_draws p0 changes = Some w /\
    points w = Some pts /\
    scene w = match changes with
              | [] => [Galaxy pts; Camera]
              | _ :: _ => [Camera; Galaxy pts]
              end.
Proof.
  destruct (script_settled p0 changes)
    as (w & k & Hs & Hg & Hm & Hp & Hsc & _).
  do 2 eexists. split; [exact Hs|]. split; [exact Hp|].
  rewrite Hsc. now destruct changes.
Qed.

(** X5: after the first call and any committed changes, the galaxy that
    [points] names is made of the geometry and the material that the two other
    variables name; its material has the [size] of the parameters of the last
    call, attenuation on, depth writing off, additive blending and vertex
    colors on; its two attributes have item size 3 and [3 * count] numbers,
    [count] being that of the last call. *)
Theorem X5_current_galaxy (p0 : Parameters num)
    (changes : list (Parameters num)) :
  exists w pts,
    script rnd THREE_Color uuid_draws p0 changes = Some w /\
    points w = Some pts /\
    geometry w = Some (points_geometry pts) /\
    material w = Some (points_material pts) /\
    material_size (points_material pts) = size (List.last changes p0) /\
    sizeAttenuation (points_material pts) = true /\
    depthWrite (points_material pts) = false /\
    blending (points_material pts) = AdditiveBlending /\
    vertexColors (points_material pts) = true /\
    itemSize (position (points_geometry pts)) = 3 /\
    itemSize (color (points_geometry pts)) = 3 /\
    length (array (position (points_geometry pts)))
      = 3 * count (List.last changes p0) /\
    length (array (color (points_geometry pts)))
      = 3 * count (List.last changes p0).
Proof.
  destruct (script_settled p0 changes)
    as (w & k & Hs & Hg & Hm & Hp & _).
  do 2 eexists. split; [exact Hs|]. split; [exact Hp|].
  split; [exact Hg|]. split; [exact Hm|].
  repeat split; cbn; apply generate_lengths.
Qed.

End SceneMore.

(** ** More on the generator, in exact arithmetic *)

Section ExactMore.
Context {F : Single}.
Variable rnd : nat -> R.
Variable THREE_Color : string -> Color R.
Local Open Scope R_scope.



(** A linear interpolation by a fraction of [0, 1] stays between its ends. *)
Lemma between_ends (x y t : R) :
  0 <= t <= 1 -> Rmin x y <= x + (y - x) * t <= Rmax x y.
Proof.
  intros Ht. unfold Rmin, Rmax. destruct (Rle_dec x y); nra.
Qed.

(** X9: with draws in [0, 1) and a positive [radius], each color channel
    stored for a star is the conversion to single precision of a value that
    lies between the inside and the outside value of that channel; so it lies
    between the conversions of the smaller and of the larger of the two. *)
Theorem X9_color_between (p : Parameters R) (k0 i : nat) :
  uniform rnd -> 0 < radius p -> (i < count p)%nat ->
  let colorInside := THREE_Color (insideColor p) in
  let colorOutside := THREE_Color (outsideColor p) in
  exists cr cg cb : R,
    slots (colors (fst (generate rnd THREE_Color p k0))) (3 * i)
    = [fround cr; fround cg; fround cb]
    /\ Rmin (r colorInside) (r colorOutside) <= cr
       <= Rmax (r colorInside) (r colorOutside)
    /\ Rmin (g colorInside) (g colorOutside) <= cg
       <= Rmax (g colorInside) (g colorOutside)
    /\ Rmin (b colorInside) (b colorOutside) <= cb
       <= Rmax (b colorInside) (b colorOutside)
    /\ fround (Rmin (r colorInside) (r colorOutside)) <= fround cr
       <= fround (Rmax (r colorInside) (r colorOutside))
    /\ fround (Rmin (g colorInside) (g colorOutside)) <= fround cg
       <= fround (Rmax (g colorInside) (g colorOutside))
    /\ fround (Rmin (b colorInside) (b colorOutside)) <= fround cb
       <= fround (Rmax (b colorInside) (b colorOutside)).
Proof.
  intros Hu Hr Hi cI cO.
  set (k := firstDraw k0 i). set (ri := radiusAt rnd p k).
  destruct (starRadius_range p (rnd k) (Hu k) ltac:(lra)) as [Hr0 Hr1].
  fold (radiusAt rnd p k) in Hr0, Hr1. fold ri in Hr0, Hr1.
  assert (Ht : 0 <= fraction p ri <= 1).
  { unfold fraction. cbn [div Real]. split.
    - apply Rmult_le_pos; [assumption|]. left. now apply Rinv_0_lt_compat.
    - apply (Rmult_le_reg_r (radius p)); [assumption|].
      unfold Rdiv. rewrite Rmult_assoc, Rinv_l by lra. lra. }
  pose proof (between_ends (r cI) (r cO) _ Ht) as Br.
  pose proof (between_ends (g cI) (g cO) _ Ht) as Bg.
  pose proof (between_ends (b cI) (b cO) _ Ht) as Bb.
  do 3 eexists. split; [now rewrite color_slice by assumption|].
  split; [exact Br|]. split; [exact Bg|]. split; [exact Bb|].
  split; [now apply fround_between|]. split; now apply fround_between.
Qed.

(** X10: with at least one branch, the branch angle of every star lies in
    [0, 2 PI), and two stars have the same branch angle exactly when their
    indices are equal modulo [branches]. *)
Theorem X10_branch_angles (p : Parameters R) (i j : nat) :
  (1 <= branches p)%nat ->
  0 <= branchAngle p i < 2 * PI
  /\ (branchAngle p i = branchAngle p j <->
      (i mod branches p = j mod branches p)%nat).
Proof.
  intros Hb.
  assert (Hpos : 0 < INR (branches p)) by (apply lt_0_INR; lia).
  pose proof PI_RGT_0 as Hpi.
  rewrite !branchAngle_real by assumption.
  assert (Hm : forall n : nat,
             0 <= INR (n mod branches p) / INR (branches p) < 1).
  { intros n.
    assert (Hlt : (n mod branches p < branches p)%nat)
      by (apply Nat.mod_upper_bound; lia).
    apply lt_INR in Hlt. pose proof (pos_INR (n mod branches p)) as H0.
    split.
    - apply Rmult_le_pos; [assumption|]. left. now apply Rinv_0_lt_compat.
    - apply (Rmult_lt_reg_r (INR (branches p))); [assumption|].
      unfold Rdiv. rewrite Rmult_assoc, Rinv_l by lra. lra. }
  split.
  - pose proof (Hm i). nra.
  - split.
    + intros E. apply INR_eq.
      assert (E2 : INR (i mod branches p) / INR (branches p)
                   = INR (j mod branches p) / INR (branches p)) by nra.
      unfold Rdiv in E2. apply Rmult_eq_reg_r in E2; [assumption|].
      apply Rinv_neq_0_compat. lra.
    + intros E. now rewrite E.
Qed.
End ExactMore.

(** ** The page, for any arithmetic *)

Section PageFacts.
Context {num : Type} {JS : JSNumber num} {JM : JSMath num}.
Variable rnd : nat -> num.
Variable THREE_Color : string -> Color num.
Variable uuid_draws : nat.
Variable Controls : Type.
Variable OrbitControls_update :
  Controls -> num * num * num -> Controls * (num * num * num).

(** What [tick] keeps and what it changes. *)
Lemma tick_fields (t : num) (a : Page num Controls) :
  world (tick Controls OrbitControls_update t a) = world a /\
  parameters (tick Controls OrbitControls_update t a) = parameters a /\
  sizes (tick Controls OrbitControls_update t a) = sizes a /\
  renderer (tick Controls OrbitControls_update t a) = renderer a /\
  fov (camera (tick Controls OrbitControls_update t a)) = fov (camera a) /\
  aspect (camera (tick Controls OrbitControls_update t a)) = aspect (camera a) /\
  near (camera (tick Controls OrbitControls_update t a)) = near (camera a) /\
  far (camera (tick Controls OrbitControls_update t a)) = far (camera a) /\
  requested (tick Controls OrbitControls_update t a) = requested a + 1 /\
  tl (frames (tick Controls OrbitControls_update t a)) = frames a /\
  length (frames (tick Controls OrbitControls_update t a))
    = S (length (frames a)).
Proof.
  unfold tick.
  destruct (OrbitControls_update (controls a) (camera_position (camera a)))
    as [c pos].
  now repeat split.
Qed.

(** The frame that [tick] draws when exactly one galaxy is attached. *)
Lemma tick_frame (t : num) (a : Page num Controls) :
  one_galaxy (world a) ->
  exists f,
    frames (tick Controls OrbitControls_update t a) = f :: frames a /\
    frame_rotation_y f = [mul t rotation_speed] /\
    frame_scene f = scene (world a) /\
    frame_renderer f = renderer a.
Proof.
  intros (geo & mat & pts & _ & _ & Hp & Hs & _). unfold tick.
  destruct (OrbitControls_update (controls a) (camera_position (camera a)))
    as [c pos].
  eexists. split; [reflexivity|]. cbn. rewrite Hp, Hs. cbn.
  now rewrite Nat.eqb_refl.
Qed.

(** The events change the world through the committed changes only. *)
Lemma run_world (events : list (HostEvent num Controls)) :
  forall a : Page num Controls,
    option_map world
      (run rnd THREE_Color uuid_draws Controls OrbitControls_update events a)
    = onFinishChange rnd THREE_Color uuid_draws (commits Controls (parameters a) events)
        (world a).
Proof.
  induction events as [|e rest IH]; intros a; [reflexivity|].
  destruct e as [win | p | | input | t]; cbn [run handle commits].
  - now rewrite IH.
  - now rewrite IH.
  - cbn [onFinishChange].
    destruct (generateGalaxy rnd THREE_Color uuid_draws (parameters a) (world a)) as [w|];
      [now rewrite IH | reflexivity].
  - now rewrite IH.
  - destruct (requested a) as [|n]; [now rewrite IH|].
    rewrite IH.
    destruct (tick_fields t (mkPage (world a) (parameters a) (sizes a)
                (camera a) (controls a) (renderer a) (rotation_y a) n
                (frames a))) as (Hw & Hp & _).
    now rewrite Hw, Hp.
Qed.

Lemma session_world (p0 : Parameters num) (win : Window num)
    (controls0 : Controls) (elapsed0 : num)
    (events : list (HostEvent num Controls)) :
  option_map world
    (session rnd THREE_Color uuid_draws Controls OrbitControls_update p0 win controls0
       elapsed0 events)
  = script rnd THREE_Color uuid_draws p0 (commits Controls p0 events).
Proof.
  unfold session, boot, script.
  destruct (generateGalaxy rnd THREE_Color uuid_draws p0 initial) as [w|]; [|reflexivity].
  rewrite run_world.
  match goal with
  | |- context [tick _ _ _ ?a] =>
      destruct (tick_fields elapsed0 a) as (Hw & Hp & _)
  end.
  now rewrite Hw, Hp.
Qed.

(** The session never fails. *)
Lemma session_total (p0 : Parameters num) (win : Window num)
    (controls0 : Controls) (elapsed0 : num)
    (events : list (HostEvent num Controls)) :
  exists a,
    session rnd THREE_Color uuid_draws Controls OrbitControls_update p0 win controls0
      elapsed0 events = Some a /\
    script rnd THREE_Color uuid_draws p0 (commits Controls p0 events) = Some (world a).
Proof.
  pose proof (session_world p0 win controls0 elapsed0 events) as Hw.
  destruct (script_one_galaxy rnd THREE_Color uuid_draws p0 (commits Controls p0 events))
    as (w & Hs & _).
  rewrite Hs in Hw.
  destruct (session rnd THREE_Color uuid_draws Controls OrbitControls_update p0 win
              controls0 elapsed0 events) as [a|]; [|discriminate].
  exists a. split; [reflexivity|]. cbn in Hw. now injection Hw as ->.
Qed.
(** [tick] from a steady state with no callback requested draws a frame and
    requests one callback. *)
Lemma tick_steady (win : Window num) (t : num) (a : Page num Controls) :
  steady rnd THREE_Color uuid_draws Controls win
    (mkPage (world a) (parameters a) (sizes a) (camera a) (controls a)
       (renderer a) (rotation_y a) 1 (frames a)) ->
  requested a = 0 ->
  steady rnd THREE_Color uuid_draws Controls win (tick Controls OrbitControls_update t a)
  /\ exists f,
       frames (tick Controls OrbitControls_update t a) = f :: frames a /\
       drawn (t, win) f.
Proof.
  intros (Hw & _ & Hs & Hr & Ha & Hf & Hn & Hfar) Hq. cbn in *.
  destruct Hw as (p & n & k & first & Hset).
  pose proof Hset as (_ & _ & Hp & Hsc & _).
  unfold tick. rewrite Hp.
  destruct (OrbitControls_update (controls a) (camera_position (camera a)))
    as [c pos].
  split.
  - unfold steady. cbn. rewrite Hq.
    repeat split; try assumption. now exists p, n, k, first.
  - eexists. split; [reflexivity|]. unfold drawn. cbn.
    repeat split.
    + rewrite Hsc. destruct first; cbn; now rewrite Nat.eqb_refl.
    + eexists. rewrite Hsc. destruct first; [left | right]; reflexivity.
    + exact Hr.
    + rewrite Ha, Hr, Hs. reflexivity.
Qed.

(** One event from a steady state. *)
Lemma handle_steady (win : Window num) (e : HostEvent num Controls)
    (a : Page num Controls) :
  steady rnd THREE_Color uuid_draws Controls win a ->
  exists a',
    handle rnd THREE_Color uuid_draws Controls OrbitControls_update e a = Some a' /\
    steady rnd THREE_Color uuid_draws Controls (last_window Controls win [e]) a' /\
    exists new,
      frames a' = new ++ frames a /\
      Forall2 drawn (frame_stamps Controls win [e]) new.
Proof.
  intros Hst.
  pose proof Hst as (Hw & Hq & Hs & Hr & Ha & Hf & Hn & Hfar).
  destruct e as [win' | p | | input | t]; cbn [handle last_window frame_stamps].
  - eexists. split; [reflexivity|]. split.
    + unfold steady, onResize. cbn. now repeat split.
    + exists []. split; [reflexivity | constructor].
  - eexists. split; [reflexivity|]. split.
    + unfold steady. cbn. now repeat split.
    + exists []. split; [reflexivity | constructor].
  - destruct Hw as (p & n & k & first & Hset).
    destruct (next_settled rnd THREE_Color uuid_draws p (parameters a) n k first
                (world a) Hset) as (w' & Hc & Hset').
    rewrite Hc. eexists. split; [reflexivity|]. split.
    + unfold steady. cbn. repeat split; try assumption.
      do 4 eexists. exact Hset'.
    + exists []. split; [reflexivity | constructor].
  - eexists. split; [reflexivity|]. split.
    + unfold steady. cbn. now repeat split.
    + exists []. split; [reflexivity | constructor].
  - rewrite Hq.
    set (a0 := mkPage (world a) (parameters a) (sizes a) (camera a)
                 (controls a) (renderer a) (rotation_y a) 0 (frames a)).
    destruct (tick_steady win t a0) as (Hst' & f & Hfr & Hd).
    { unfold steady. cbn. now repeat split. }
    { reflexivity. }
    eexists. split; [reflexivity|]. split; [exact Hst'|].
    exists [f]. split; [exact Hfr|]. constructor; [exact Hd | constructor].
Qed.

(** The stamps of the frames of a list of events: those of the first event,
    then those of the others, from the window that the first event leaves. *)
Lemma frame_stamps_cons (win : Window num) (e : HostEvent num Controls)
    (rest : list (HostEvent num Controls)) :
  frame_stamps Controls win (e :: rest)
  = frame_stamps Controls win [e]
    ++ frame_stamps Controls (last_window Controls win [e]) rest.
Proof. destruct e; reflexivity. Qed.

Lemma last_window_cons (win : Window num) (e : HostEvent num Controls)
    (rest : list (HostEvent num Controls)) :
  last_window Controls win (e :: rest)
  = last_window Controls (last_window Controls win [e]) rest.
Proof. destruct e; reflexivity. Qed.

(** The times of the frames are the first components of their stamps. *)
Lemma frame_times_stamps (events : list (HostEvent num Controls)) :
  forall win : Window num,
    frame_times Controls events = map fst (frame_stamps Controls win events).
Proof.
  induction events as [|e rest IH]; intros win; [reflexivity|].
  destruct e; cbn [frame_times frame_stamps map fst]; try apply IH.
  f_equal. apply IH.
Qed.

(** Any events from a steady state. *)
Lemma run_steady (events : list (HostEvent num Controls)) :
  forall (win : Window num) (a : Page num Controls),
    steady rnd THREE_Color uuid_draws Controls win a ->
    exists a',
      run rnd THREE_Color uuid_draws Controls OrbitControls_update events a = Some a' /\
      steady rnd THREE_Color uuid_draws Controls (last_window Controls win events) a' /\
      exists new,
        frames a' = new ++ frames a /\
        Forall2 drawn (rev (frame_stamps Controls win events)) new.
Proof.
  induction events as [|e rest IH]; intros win a Hst.
  - exists a. split; [reflexivity|]. split; [exact Hst|].
    exists []. split; [reflexivity | constructor].
  - destruct (handle_steady win e a Hst) as (a1 & He & Hst1 & new1 & Hf1 & Hd1).
    destruct (IH _ a1 Hst1) as (a2 & Hr & Hst2 & new2 & Hf2 & Hd2).
    exists a2. cbn [run]. rewrite He. split; [exact Hr|]. split.
    + rewrite last_window_cons. exact Hst2.
    + exists (new2 ++ new1). split.
      * rewrite Hf2, Hf1. now rewrite app_assoc.
      * rewrite frame_stamps_cons, rev_app_distr.
        apply Forall2_app; [exact Hd2|].
        destruct e; cbn in *; exact Hd1.
Qed.

(** The script ends in a steady state with one frame drawn. *)
Lemma boot_steady (p0 : Parameters num) (win : Window num)
    (controls0 : Controls) (elapsed0 : num) :
  exists a f,
    boot rnd THREE_Color uuid_draws Controls OrbitControls_update p0 win controls0
      elapsed0 = Some a /\
    steady rnd THREE_Color uuid_draws Controls win a /\
    frames a = [f] /\ drawn (elapsed0, win) f.
Proof.
  destruct (first_settled rnd THREE_Color uuid_draws p0) as (w & Hc & Hset).
  unfold boot. rewrite Hc.
  match goal with
  | |- context [tick _ _ _ ?a] => set (a0 := a)
  end.
  destruct (tick_steady win elapsed0 a0) as (Hst & f & Hf & Hd).
  { unfold steady. cbn. repeat split. do 4 eexists. exact Hset. }
  { reflexivity. }
  exists (tick Controls OrbitControls_update elapsed0 a0), f.
  split; [reflexivity|]. split; [exact Hst|]. split; [exact Hf | exact Hd].
Qed.

(** The session ends in a steady state, and its frames are those of the first
    [tick] and of the animation frames, the latest first, each drawn with the
    renderer as the last resize before it left it. *)
Lemma session_steady (p0 : Parameters num) (win : Window num)
    (controls0 : Controls) (elapsed0 : num)
    (events : list (HostEvent num Controls)) :
  exists a,
    session rnd THREE_Color uuid_draws Controls OrbitControls_update p0 win controls0
      elapsed0 events = Some a /\
    steady rnd THREE_Color uuid_draws Controls (last_window Controls win events) a /\
    Forall2 drawn (rev ((elapsed0, win) :: frame_stamps Controls win events))
      (frames a).
Proof.
  destruct (boot_steady p0 win controls0 elapsed0) as (a0 & f & Hb & Hst & Hf & Hd).
  destruct (run_steady events win a0 Hst) as (a & Hr & Hst' & new & Hn & Hd').
  exists a. unfold session. rewrite Hb. split; [exact Hr|].
  split; [exact Hst'|].
  rewrite Hn, Hf. cbn [rev].
  apply Forall2_app; [exact Hd'|]. constructor; [exact Hd | constructor].
Qed.

(** A relation that holds of the stamps holds of their images. *)
Lemma Forall2_map_rev {A B C : Type} (h : A -> B) (P : B -> C -> Prop)
    (l : list A) (k : list C) :
  Forall2 (fun x y => P (h x) y) (rev l) k -> Forall2 P (rev (map h l)) k.
Proof.
  rewrite <- map_rev. generalize (rev l). clear l. intros l H.
  induction H; cbn; constructor; assumption.
Qed.
End PageFacts.

(** ** What the page shows, for any arithmetic *)

Section PageMore.
Context {num : Type} {JS : JSNumber num} {JM : JSMath num}.
Variable rnd : nat -> num.
Variable THREE_Color : string -> Color num.
Variable uuid_draws : nat.
Variable Controls : Type.
Variable OrbitControls_update :
  Controls -> num * num * num -> Controls * (num * num * num).
Local Open Scope js_scope.

(** X11: whatever the events, the session does not fail, and the state of the
    galaxy is the one that the committed changes alone give: resizes, pointer
    actions, animation frames and values written by the panel without a commit
    leave it as it is.  The galaxy in the scene has the [size] and the [count]
    that [parameters] had at the last commit (at the start, if there was
    none). *)
Theorem X11_commits_only (p0 : Parameters num) (win : Window num)
    (controls0 : Controls) (elapsed0 : num)
    (events : list (HostEvent num Controls)) :
  exists a pts,
    session rnd THREE_Color uuid_draws Controls OrbitControls_update p0 win controls0
      elapsed0 events = Some a /\
    script rnd THREE_Color uuid_draws p0 (commits Controls p0 events) = Some (world a) /\
    points (world a) = Some pts /\
    scene (world a) = match commits Controls p0 events with
                      | [] => [Galaxy pts; Camera]
                      | _ :: _ => [Camera; Galaxy pts]
                      end /\
    material_size (points_material pts)
      = size (List.last (commits Controls p0 events) p0) /\
    length (array (position (points_geometry pts)))
      = (3 * count (List.last (commits Controls p0 events) p0))%nat.
Proof.
  destruct (session_total rnd THREE_Color uuid_draws Controls OrbitControls_update p0 win
              controls0 elapsed0 events) as (a & Hs & Hw).
  destruct (script_settled rnd THREE_Color uuid_draws p0 (commits Controls p0 events))
    as (w & k & Hw' & Hg & Hm & Hp & Hsc & _).
  rewrite Hw in Hw'. injection Hw' as <-.
  eexists a, _. split; [exact Hs|]. split; [exact Hw|]. split; [exact Hp|].
  split; [rewrite Hsc; now destruct (commits Controls p0 events)|].
  split; [reflexivity|]. cbn. apply generate_lengths.
Qed.

(** X12: after the script and any events, [sizes] holds the width and the
    height of the window at the last resize (at the start, if there was none);
    the aspect of the camera is that width over that height; the renderer has
    that width and that height, and its pixel ratio is the minimum of that of
    the window and 2; the field of view and the two planes of the camera are
    those of its creation. *)
Theorem X12_view_follows_window (p0 : Parameters num) (win : Window num)
    (controls0 : Controls) (elapsed0 : num)
    (events : list (HostEvent num Controls)) :
  let w := last_window Controls win events in
  exists a,
    session rnd THREE_Color uuid_draws Controls OrbitControls_update p0 win controls0
      elapsed0 events = Some a /\
    sizes a = mkSizes (innerWidth w) (innerHeight w) /\
    aspect (camera a) = innerWidth w / innerHeight w /\
    renderer a = mkRenderer (innerWidth w) (innerHeight w)
                   (Math_min (devicePixelRatio w) (of_nat 2)) /\
    fov (camera a) = of_nat 75 /\
    near (camera a) = of_nat 1 / of_nat 10 /\
    far (camera a) = of_nat 100.
Proof.
  intros w.
  destruct (session_steady rnd THREE_Color uuid_draws Controls OrbitControls_update p0 win
              controls0 elapsed0 events)
    as (a & Hs & (_ & _ & Hsz & Hr & Ha & Hf & Hn & Hfar) & _).
  exists a. split; [exact Hs|]. fold w in Hsz, Hr.
  rewrite Hsz in Ha. now repeat split.
Qed.

(** X13: the animation loop neither stops nor multiplies: after the script
    and any events exactly one callback is requested, and the frames drawn are
    one for the first call of [tick] and one for each animation frame. *)
Theorem X13_animation_loop (p0 : Parameters num) (win : Window num)
    (controls0 : Controls) (elapsed0 : num)
    (events : list (HostEvent num Controls)) :
  exists a,
    session rnd THREE_Color uuid_draws Controls OrbitControls_update p0 win controls0
      elapsed0 events = Some a /\
    requested a = 1%nat /\
    length (frames a) = S (length (frame_times Controls events)).
Proof.
  destruct (session_steady rnd THREE_Color uuid_draws Controls OrbitControls_update p0 win
              controls0 elapsed0 events)
    as (a & Hs & (_ & Hq & _) & Hd).
  exists a. split; [exact Hs|]. split; [exact Hq|].
  apply Forall2_length in Hd.
  rewrite <- Hd, length_rev, (frame_times_stamps Controls events win).
  cbn. now rewrite length_map.
Qed.

(** X14: every frame drawn shows the camera and exactly one galaxy, whose
    [rotation.y] is the time of the frame times 0.05, however many times the
    galaxy was regenerated before; and it is drawn with a camera whose aspect
    is the width of the renderer over its height. *)
Theorem X14_frames (p0 : Parameters num) (win : Window num)
    (controls0 : Controls) (elapsed0 : num)
    (events : list (HostEvent num Controls)) :
  exists a,
    session rnd THREE_Color uuid_draws Controls OrbitControls_update p0 win controls0
      elapsed0 events = Some a /\
    Forall2
      (fun (t : num) (f : Frame num) =>
         frame_rotation_y f = [t * (of_nat 5 / of_nat 100)] /\
         (exists pts, frame_scene f = [Galaxy pts; Camera] \/
                      frame_scene f = [Camera; Galaxy pts]) /\
         aspect (frame_camera f)
           = renderer_width (frame_renderer f)
             / renderer_height (frame_renderer f))
      (rev (elapsed0 :: frame_times Controls events)) (frames a).
Proof.
  destruct (session_steady rnd THREE_Color uuid_draws Controls OrbitControls_update p0 win
              controls0 elapsed0 events) as (a & Hs & _ & Hd).
  exists a. split; [exact Hs|].
  rewrite (frame_times_stamps Controls events win).
  change (elapsed0 :: map fst (frame_stamps Controls win events))
    with (map fst ((elapsed0, win) :: frame_stamps Controls win events)).
  apply Forall2_map_rev.
  eapply Forall2_impl; [exact Hd|].
  intros t f (Hr & Hsc & _ & Ha). now repeat split.
Qed.
End PageMore.

(** ** What the page shows, in exact arithmetic *)

Section PageExact.
Context {F : Single}.
Variable rnd : nat -> R.
Variable THREE_Color : string -> Color R.
Variable uuid_draws : nat.
Variable Controls : Type.
Variable OrbitControls_update : Controls -> R * R * R -> Controls * (R * R * R).
Local Open Scope R_scope.

Lemma resized_pixelRatio (win : Window R) :
  pixelRatio (resized_renderer win) <= 2 /\
  pixelRatio (resized_renderer win) <= devicePixelRatio win.
Proof.
  unfold resized_renderer. cbn. replace (1 + 1) with 2 by lra.
  split; [apply Rmin_r | apply Rmin_l].
Qed.

(** X15: the pixel ratio of the renderer never exceeds 2, nor that of the
    window: this holds of the renderer after the script and any events, with
    the window of the last resize, and of the renderer of every frame drawn,
    with the window of the last resize before that frame. *)
Theorem X15_pixel_ratio_capped (p0 : Parameters R) (win : Window R)
    (controls0 : Controls) (elapsed0 : R)
    (events : list (HostEvent R Controls)) :
  exists a,
    session rnd THREE_Color uuid_draws Controls OrbitControls_update p0 win controls0
      elapsed0 events = Some a /\
    pixelRatio (renderer a) <= 2 /\
    pixelRatio (renderer a)
      <= devicePixelRatio (last_window Controls win events) /\
    Forall2
      (fun (w : Window R) (f : Frame R) =>
         pixelRatio (frame_renderer f) <= 2 /\
         pixelRatio (frame_renderer f) <= devicePixelRatio w)
      (rev (win :: frame_windows Controls win events)) (frames a).
Proof.
  destruct (session_steady rnd THREE_Color uuid_draws Controls OrbitControls_update p0 win
              controls0 elapsed0 events)
    as (a & Hs & (_ & _ & _ & Hr & _) & Hd).
  exists a. split; [exact Hs|]. rewrite Hr.
  split; [apply resized_pixelRatio|]. split; [apply resized_pixelRatio|].
  unfold frame_windows.
  change (win :: map snd (frame_stamps Controls win events))
    with (map snd ((elapsed0, win) :: frame_stamps Controls win events)).
  apply Forall2_map_rev.
  eapply Forall2_impl; [exact Hd|].
  intros st f (_ & _ & Hw & _). rewrite Hw. apply resized_pixelRatio.
Qed.
End PageExact.

(** ** More on the generator, in binary64 *)

Section Binary64More.
Variables (cos sin : float -> float) (pow : float -> float -> float).
Variable rnd : nat -> float.
Variable THREE_Color : string -> Color float.

(** Shifting a mantissa that is not negative gives one that is not negative. *)
Lemma shr_1_nonneg (mrs : shr_record) :
  (0 <= shr_m mrs)%Z -> (0 <= shr_m (shr_1 mrs))%Z.
Proof.
  destruct mrs as [m r s]. cbn [shr_m]. intros Hm. unfold shr_1.
  destruct m as [|q|q]; [cbn; lia| |lia].
  destruct q; cbn; lia.
Qed.

Lemma iter_shr_1_nonneg (n : positive) :
  forall mrs : shr_record,
    (0 <= shr_m mrs)%Z -> (0 <= shr_m (SpecFloat.iter_pos shr_1 n mrs))%Z.
Proof.
  induction n as [n IH|n IH|]; intros mrs Hm; cbn [SpecFloat.iter_pos].
  - apply IH, IH. now apply shr_1_nonneg.
  - now apply IH, IH.
  - now apply shr_1_nonneg.
Qed.

Lemma shr_fexp_nonneg (pr em m e : Z) (l : location) :
  (0 <= m)%Z -> (0 <= shr_m (fst (shr_fexp pr em m e l)))%Z.
Proof.
  intros Hm. unfold shr_fexp, shr.
  assert (H0 : (0 <= shr_m (shr_record_of_loc m l))%Z)
    by (destruct l as [|[]]; exact Hm).
  destruct (fexp pr em (Zdigits2 m + e) - e)%Z; cbn [fst]; try exact H0.
  now apply iter_shr_1_nonneg.
Qed.

Lemma round_nearest_even_nonneg (m : Z) (l : location) :
  (0 <= m)%Z -> (0 <= round_nearest_even m l)%Z.
Proof.
  intros Hm. unfold round_nearest_even.
  destruct l as [|[]]; try destruct (Z.even m); lia.
Qed.

(** Rounding a mantissa that is not negative never gives NaN. *)
Lemma binary_round_aux_not_nan (pr em : Z) (s : bool) (m e : Z) (l : location) :
  (0 <= m)%Z -> binary_round_aux pr em s m e l <> S754_nan.
Proof.
  intros Hm. unfold binary_round_aux.
  pose proof (shr_fexp_nonneg pr em m e l Hm) as H1.
  destruct (shr_fexp pr em m e l) as [mrs' e']. cbn [fst] in H1.
  pose proof (shr_fexp_nonneg pr em
                (round_nearest_even (shr_m mrs') (loc_of_shr_record mrs'))
                e' loc_Exact
                (round_nearest_even_nonneg _ _ H1)) as H2.
  destruct (shr_fexp pr em _ e' loc_Exact) as [mrs'' e'']. cbn [fst] in H2.
  destruct (shr_m mrs'') as [|q|q]; [discriminate| |lia].
  destruct (e'' <=? em - pr)%Z; discriminate.
Qed.

(** The quotient of two finite numbers, the divisor not being a zero, is not
    NaN. *)
Lemma SFdiv_finite_not_nan (x : spec_float) (s : bool) (m : positive) (e : Z) :
  x <> S754_nan ->
  SFdiv prec emax x (S754_finite s m e) <> S754_nan.
Proof.
  intros Hx. destruct x as [sx|sx| |sx mx ex]; cbn [SFdiv];
    try discriminate; try contradiction.
  unfold SFdiv_core_binary.
  set (m' := match (ex - e - _)%Z with
             | Z0 => Z.pos mx | Zpos _ => Z.shiftl (Z.pos mx) _ | Zneg _ => 0%Z
             end).
  assert (Hm' : (0 <= m')%Z).
  { subst m'. destruct (ex - e - _)%Z; try lia.
    apply Z.shiftl_nonneg. lia. }
  pose proof (Z.div_pos m' (Z.pos m) Hm' ltac:(lia)) as Hq.
  unfold Z.div in Hq.
  destruct (Z.div_eucl m' (Z.pos m)) as [q r].
  now apply binary_round_aux_not_nan.
Qed.

(** The product of a number by a finite number that is not a zero is not
    NaN. *)
Lemma SFmul_finite_not_nan (x : spec_float) (s : bool) (m : positive) (e : Z) :
  x <> S754_nan -> SFmul prec emax x (S754_finite s m e) <> S754_nan.
Proof.
  intros Hx. destruct x as [sx|sx| |sx mx ex]; cbn [SFmul];
    try discriminate; try contradiction.
  apply binary_round_aux_not_nan. lia.
Qed.

(** The three classes of a float, read on its specification. *)
Lemma not_nan_shape (x : float) :
  PrimFloat.is_nan x = false -> Prim2SF x <> S754_nan.
Proof.
  unfold PrimFloat.is_nan. rewrite FloatAxioms.eqb_spec. intros H E.
  rewrite E in H. discriminate.
Qed.

Lemma shape_not_nan (x : float) :
  Prim2SF x <> S754_nan -> PrimFloat.is_nan x = false.
Proof.
  intros H. destruct (PrimFloat.is_nan x) eqn:E; [|reflexivity].
  exfalso. apply H. unfold Prim2SF. now rewrite E.
Qed.

Lemma not_infinity_shape (x : float) :
  PrimFloat.is_infinity x = false -> forall s, Prim2SF x <> S754_infinity s.
Proof.
  unfold PrimFloat.is_infinity.
  rewrite FloatAxioms.eqb_spec, FloatAxioms.abs_spec. intros H s E.
  rewrite E in H. discriminate.
Qed.

Lemma finite_nonzero_shape (x : float) :
  PrimFloat.is_nan x = false -> PrimFloat.is_infinity x = false ->
  PrimFloat.is_zero x = false ->
  exists s m e, Prim2SF x = S754_finite s m e.
Proof.
  intros Hn Hi Hz.
  pose proof (not_nan_shape x Hn) as Hn'.
  pose proof (not_infinity_shape x Hi) as Hi'.
  unfold PrimFloat.is_zero in Hz. rewrite FloatAxioms.eqb_spec in Hz.
  destruct (Prim2SF x) as [s|s| |s m e].
  - destruct s; discriminate.
  - now destruct (Hi' s).
  - contradiction.
  - now exists s, m, e.
Qed.

(** X16: in binary64, when [parameters.radius] is finite and not a zero and
    the first draw of a star is not NaN, the fraction
    [radius_i / parameters.radius] that the generator hands to the
    interpolation is not NaN. *)
Theorem X16_fraction_is_a_number (p : Parameters float) (k0 i : nat) :
  PrimFloat.is_nan (radius p) = false ->
  PrimFloat.is_infinity (radius p) = false ->
  PrimFloat.is_zero (radius p) = false ->
  PrimFloat.is_nan (rnd (firstDraw k0 i)) = false ->
  PrimFloat.is_nan
    (fraction (JS := Binary64 cos sin pow) p
       (radiusAt (JS := Binary64 cos sin pow) rnd p (firstDraw k0 i))) = false.
Proof.
  intros Hn Hi Hz Hun.
  destruct (finite_nonzero_shape (radius p) Hn Hi Hz) as (s & m & e & Hr).
  apply shape_not_nan.
  unfold fraction, radiusAt, starRadius. cbn [div mul Binary64].
  rewrite FloatAxioms.div_spec, FloatAxioms.mul_spec, Hr.
  apply SFdiv_finite_not_nan, SFmul_finite_not_nan.
  now apply not_nan_shape.
Qed.
(** A finite float is a zero or has a mantissa. *)
Lemma finite_shape (x : float) :
  PrimFloat.is_finite x = true ->
  (exists s, Prim2SF x = S754_zero s) \/
  (exists s m e, Prim2SF x = S754_finite s m e).
Proof.
  unfold PrimFloat.is_finite. intros H.
  apply negb_true_iff, orb_false_iff in H as [Hn Hi].
  pose proof (not_nan_shape x Hn) as Hn'.
  pose proof (not_infinity_shape x Hi) as Hi'.
  destruct (Prim2SF x) as [s|s| |s m e].
  - left. now exists s.
  - now destruct (Hi' s).
  - contradiction.
  - right. now exists s, m, e.
Qed.

(** A draw in [0, 1) is a zero or has a mantissa. *)
Lemma draw_shape (u : float) :
  PrimFloat.leb 0 u = true -> PrimFloat.ltb u 1 = true ->
  (exists s, Prim2SF u = S754_zero s) \/
  (exists s m e, Prim2SF u = S754_finite s m e).
Proof.
  rewrite FloatAxioms.leb_spec, FloatAxioms.ltb_spec.
  change (Prim2SF 0) with (S754_zero false).
  destruct (Prim2SF u) as [s|s| |s m e]; intros H0 H1.
  - left. now exists s.
  - destruct s; discriminate.
  - discriminate.
  - right. now exists s, m, e.
Qed.

Lemma shr52 (m : positive) :
  SpecFloat.iter_pos shr_1 52
    {| shr_m := Z.pos (4503599627370496 * m); shr_r := false; shr_s := false |}
  = {| shr_m := Z.pos m; shr_r := false; shr_s := false |}.
Proof. reflexivity. Qed.

Lemma digits52 (m : positive) :
  digits2_pos (4503599627370496 * m) = (digits2_pos m + 52)%positive.
Proof.
  set (d := digits2_pos m).
  assert (E : digits2_pos (4503599627370496 * m) = Pos.iter Pos.succ d 52%positive)
    by reflexivity.
  rewrite E. clear E. generalize d. clear. intros d.
  cbn [Pos.iter]. lia.
Qed.

(** The product by 1 or by -1 is exact: it keeps the mantissa and the
    exponent. *)
Lemma SFmul_unit (s : bool) (x : spec_float) :
  valid_binary x = true ->
  SFmul prec emax x (S754_finite s 4503599627370496 (-52))
  = match x with
    | S754_zero sx => S754_zero (xorb sx s)
    | S754_infinity sx => S754_infinity (xorb sx s)
    | S754_nan => S754_nan
    | S754_finite sx m e => S754_finite (xorb sx s) m e
    end.
Proof.
  intros Hv. destruct x as [sx|sx| |sx m e]; try reflexivity.
  cbn [SFmul]. cbn [SpecFloat.valid_binary] in Hv.
  unfold bounded, canonical_mantissa in Hv.
  apply andb_prop in Hv as [Hc He].
  apply Z.eqb_eq in Hc. apply Z.leb_le in He.
  rewrite Pos.mul_comm.
  unfold binary_round_aux, shr_fexp.
  cbn [Zdigits2]. rewrite digits52.
  replace (Z.pos (digits2_pos m + 52) + (e + -52))%Z
    with (Z.pos (digits2_pos m) + e)%Z by lia.
  rewrite Hc.
  replace (e - (e + -52))%Z with 52%Z by lia.
  cbn [shr shr_record_of_loc]. rewrite shr52.
  cbn [shr_m loc_of_shr_record round_nearest_even Zdigits2].
  replace (e + -52 + 52)%Z with e by lia.
  rewrite Hc, Z.sub_diag. cbn [shr shr_record_of_loc shr_m].
  apply Z.leb_le in He. now rewrite He.
Qed.

Lemma float_mul_one (x : float) : PrimFloat.mul x 1 = x.
Proof.
  rewrite <- (SF2Prim_Prim2SF (PrimFloat.mul x 1)), FloatAxioms.mul_spec.
  change (Prim2SF 1) with (S754_finite false 4503599627370496 (-52)).
  rewrite SFmul_unit by apply Prim2SF_valid.
  rewrite <- (SF2Prim_Prim2SF x) at 2.
  destruct (Prim2SF x) as [s|s| |s m e]; now rewrite ?xorb_false_r.
Qed.

(** The product of a finite float by the random sign is finite. *)
Lemma sign_shape (x s : float) :
  ((exists sx, Prim2SF x = S754_zero sx) \/
   (exists sx m e, Prim2SF x = S754_finite sx m e)) ->
  (exists sx, Prim2SF (PrimFloat.mul x (randomSign (JS := Binary64 cos sin pow) s))
              = S754_zero sx) \/
  (exists sx m e, Prim2SF (PrimFloat.mul x (randomSign (JS := Binary64 cos sin pow) s))
                  = S754_finite sx m e).
Proof.
  intros Hx. rewrite FloatAxioms.mul_spec.
  assert (Hs : exists b, Prim2SF (randomSign (JS := Binary64 cos sin pow) s)
                         = S754_finite b 4503599627370496 (-52)).
  { unfold randomSign. destruct (lt s half); [now exists false | now exists true]. }
  destruct Hs as [b ->]. rewrite SFmul_unit by apply Prim2SF_valid.
  destruct Hx as [[sx ->] | (sx & m & e & ->)].
  - left. now eexists.
  - right. now do 3 eexists.
Qed.

(** A finite float times a zero, and a zero times a finite float, are zeros. *)
Lemma finite_times_zero (x z : float) :
  ((exists sx, Prim2SF x = S754_zero sx) \/
   (exists sx m e, Prim2SF x = S754_finite sx m e)) ->
  (exists sz, Prim2SF z = S754_zero sz) ->
  exists s, Prim2SF (PrimFloat.mul x z) = S754_zero s.
Proof.
  intros Hx [sz Hz]. rewrite FloatAxioms.mul_spec, Hz.
  destruct Hx as [[sx ->] | (sx & m & e & ->)]; cbn; now eexists.
Qed.

Lemma zero_times_finite (z x : float) :
  (exists sz, Prim2SF z = S754_zero sz) ->
  ((exists sx, Prim2SF x = S754_zero sx) \/
   (exists sx m e, Prim2SF x = S754_finite sx m e)) ->
  exists s, Prim2SF (PrimFloat.mul z x) = S754_zero s.
Proof.
  intros [sz Hz] Hx. rewrite FloatAxioms.mul_spec, Hz.
  destruct Hx as [[sx ->] | (sx & m & e & ->)]; cbn; now eexists.
Qed.

Lemma shape_is_zero (z : float) :
  (exists s, Prim2SF z = S754_zero s) -> PrimFloat.is_zero z = true.
Proof.
  intros [s Hs]. unfold PrimFloat.is_zero.
  now rewrite FloatAxioms.eqb_spec, Hs.
Qed.

(** Adding a zero to the positive zero or to a float with a mantissa changes
    nothing. *)
Lemma float_add_zero (x z : float) :
  (exists s, Prim2SF z = S754_zero s) ->
  (Prim2SF x = S754_zero false \/ exists sx m e, Prim2SF x = S754_finite sx m e) ->
  PrimFloat.add x z = x.
Proof.
  intros [s Hz] Hx.
  rewrite <- (SF2Prim_Prim2SF (PrimFloat.add x z)), FloatAxioms.add_spec, Hz.
  rewrite <- (SF2Prim_Prim2SF x) at 2.
  destruct Hx as [-> | (sx & m & e & ->)]; [now destruct s | reflexivity].
Qed.

(** A float that is not NaN compares equal to itself. *)
Lemma SFeqb_refl (x : spec_float) : x <> S754_nan -> SFeqb x x = true.
Proof.
  intros Hx. destruct x as [s|s| |s m e]; try reflexivity.
  - now destruct s.
  - contradiction.
  - unfold SFeqb, SFcompare. rewrite Z.compare_refl.
    change (PosDef.Pos.compare_cont Eq m m) with (Pos.compare m m).
    rewrite Pos.compare_refl. now destruct s.
Qed.

(** Adding a zero to a Number gives a Number that compares equal to it. *)
Lemma add_zero_eqb (a z : float) :
  (exists s, Prim2SF z = S754_zero s) -> PrimFloat.is_nan a = false ->
  PrimFloat.eqb (PrimFloat.add a z) a = true.
Proof.
  intros [s Hz] Ha. apply not_nan_shape in Ha.
  rewrite FloatAxioms.eqb_spec, FloatAxioms.add_spec, Hz.
  destruct (Prim2SF a) as [sa|sa| |sa m e] eqn:E.
  - now destruct sa, s.
  - now destruct sa.
  - contradiction.
  - cbn [SFadd]. now apply SFeqb_refl.
Qed.

(** The conversion to single precision keeps a zero. *)
Lemma float32_zero (z : float) :
  (exists s, Prim2SF z = S754_zero s) -> float32 z = z.
Proof. intros [s Hz]. unfold float32. now rewrite Hz. Qed.

(** C6: in binary64, for the parameters [count = 4], [branches = 2],
    [radius = 1], [spin = 0], [randomness = 0], whatever the other fields,
    with draws in [0, 1) and powers of the draws that are finite (as they are
    for an exponent that is not negative): the three jitter terms of every
    particle are zeros; the branch angle of the particles 0 and 2 is 0 and
    that of the particles 1 and 3 is [Math.PI], and adding the spin angle
    leaves it as it is; the radius of a particle is its first draw; and the
    three slots of the particle hold the conversion to single precision of
    [cos(angle) * radius_i] plus a zero, a zero, and the conversion of
    [sin(angle) * radius_i] plus a zero, a sum that compares equal to the
    product whenever the product is a Number. *)
Theorem C6_scenario (size power : float) (inside outside : string) (k0 : nat) :
  uniform64 rnd ->
  (forall k : nat, PrimFloat.is_finite (pow (rnd k) power) = true) ->
  let p := scenario64 size power inside outside in
  let buf := fst (generate (JS := Binary64 cos sin pow) rnd THREE_Color p k0) in
  let angle := fun i : nat => if Nat.even i then 0%float
                              else 0x1.921fb54442d18p+1%float in
  forall i : nat, (i < 4)%nat ->
    let k := firstDraw k0 i in
    let radius_i := radiusAt (JS := Binary64 cos sin pow) rnd p k in
    let jitterX := randomXAt (JS := Binary64 cos sin pow) rnd p k in
    let jitterY := randomYAt (JS := Binary64 cos sin pow) rnd p k in
    let jitterZ := randomZAt (JS := Binary64 cos sin pow) rnd p k in
    PrimFloat.is_zero jitterX = true /\
    PrimFloat.is_zero jitterY = true /\
    PrimFloat.is_zero jitterZ = true /\
    branchAngle (JS := Binary64 cos sin pow) p i = angle i /\
    PrimFloat.add (branchAngle (JS := Binary64 cos sin pow) p i)
      (spinAngle (JS := Binary64 cos sin pow) p radius_i) = angle i /\
    radius_i = rnd k /\
    slots (positions buf) (3 * i)
    = [ float32 (PrimFloat.add (PrimFloat.mul (cos (angle i)) radius_i) jitterX);
        jitterY;
        float32 (PrimFloat.add (PrimFloat.mul (sin (angle i)) radius_i) jitterZ) ] /\
    (PrimFloat.is_nan (PrimFloat.mul (cos (angle i)) radius_i) = false ->
     PrimFloat.eqb (PrimFloat.add (PrimFloat.mul (cos (angle i)) radius_i) jitterX)
       (PrimFloat.mul (cos (angle i)) radius_i) = true) /\
    (PrimFloat.is_nan (PrimFloat.mul (sin (angle i)) radius_i) = false ->
     PrimFloat.eqb (PrimFloat.add (PrimFloat.mul (sin (angle i)) radius_i) jitterZ)
       (PrimFloat.mul (sin (angle i)) radius_i) = true).
Proof.
  intros Hu Hpow p buf angle i Hi k radius_i jitterX jitterY jitterZ.
  assert (Hrad : radius_i = rnd k).
  { unfold radius_i, radiusAt, starRadius. cbn [mul Binary64 radius p scenario64].
    apply float_mul_one. }
  assert (Hdraw : forall j, (exists s, Prim2SF (rnd j) = S754_zero s) \/
                            (exists s m e, Prim2SF (rnd j) = S754_finite s m e)).
  { intros j. destruct (Hu j). now apply draw_shape. }
  assert (Hj : forall u s : nat,
            exists sz, Prim2SF (jitter (JS := Binary64 cos sin pow) p (rnd u) (rnd s)
                                  radius_i) = S754_zero sz).
  { intros u s. unfold jitter.
    cbn [mul Binary64 Math_pow randomnessPower randomness p scenario64].
    apply zero_times_finite; [|rewrite Hrad; apply Hdraw].
    apply finite_times_zero; [|now exists false].
    apply sign_shape, finite_shape, Hpow. }
  assert (HX : exists s, Prim2SF jitterX = S754_zero s) by apply Hj.
  assert (HY : exists s, Prim2SF jitterY = S754_zero s) by apply Hj.
  assert (HZ : exists s, Prim2SF jitterZ = S754_zero s) by apply Hj.
  assert (Hspin : exists s, Prim2SF (spinAngle (JS := Binary64 cos sin pow) p radius_i)
                            = S754_zero s).
  { unfold spinAngle. cbn [mul Binary64 spin p scenario64].
    apply finite_times_zero; [rewrite Hrad; apply Hdraw | now exists false]. }
  assert (Hb : branchAngle (JS := Binary64 cos sin pow) p i = angle i).
  { do 4 (destruct i as [|i]; [reflexivity|]). lia. }
  assert (Ha : PrimFloat.add (branchAngle (JS := Binary64 cos sin pow) p i)
                 (spinAngle (JS := Binary64 cos sin pow) p radius_i) = angle i).
  { rewrite Hb. apply float_add_zero; [exact Hspin|].
    unfold angle. destruct (Nat.even i); [now left|].
    right. now do 3 eexists. }
  split; [now apply shape_is_zero|]. split; [now apply shape_is_zero|].
  split; [now apply shape_is_zero|]. split; [exact Hb|]. split; [exact Ha|].
  split; [exact Hrad|]. split; [|split].
  - destruct (generate_slots (JS := Binary64 cos sin pow) rnd THREE_Color p k0 i
                ltac:(cbn; lia)) as [Hp _].
    rewrite Nat.mul_comm in Hp. fold buf in Hp. rewrite Hp.
    unfold positionAt. fold k. fold radius_i. fold jitterX. fold jitterY. fold jitterZ.
    cbn [map toFloat32 add mul Math_cos Math_sin Binary64].
    fold (spinAngle (JS := Binary64 cos sin pow) p radius_i).
    rewrite Ha. now rewrite (float32_zero jitterY).
  - intros Hn. now apply add_zero_eqb.
  - intros Hn. now apply add_zero_eqb.
Qed.
End Binary64More.

(** ** More examples *)

(** The literal 0.05 in binary64. *)
Example rotation_speed_binary64 :
  rotation_speed (JS := Binary64 series_cos series_sin cube)
  = 0x1.999999999999ap-5%float.
Proof. reflexivity. Qed.

(** A session in exact arithmetic: a resize, a value written by the panel, a
    commit and a frame; two frames are drawn and one callback is requested. *)
Example session_counts :
  option_map (fun a => (requested a, length (frames a), allocated (world a)))
    (session alternating hexColor 4 R still (defaults 2) desktop 0%R 0%R
       [Resize (mkWindow 800%R 600%R 1%R); Change (defaults 3); FinishChange;
        AnimationFrame 1%R])
  = Some (1, 2, 6).
Proof. reflexivity. Qed.

Lemma alternating_window :
  forall j : nat,
    0 <= j < 0 + 7 * count (defaults 2) ->
    alternating j = alternating_then_zero j.
Proof.
  intros j Hj. unfold alternating_then_zero. cbn in Hj.
  destruct (Nat.ltb_spec j 14) as [_ | Hge]; [reflexivity | lia].
Qed.

(** X2 with two sources that differ after the fourteen draws of two stars. *)
Lemma X2_draw_window_example :
  (forall j : nat,
     0 <= j < 0 + 7 * count (defaults 2) ->
     alternating j = alternating_then_zero j) /\
  generate alternating hexColor (defaults 2) 0
  = generate alternating_then_zero hexColor (defaults 2) 0.
Proof.
  split; [exact alternating_window|].
  exact (X2_draw_window hexColor alternating alternating_then_zero
           (defaults 2) 0 alternating_window).
Defined.


(** X9 at the third star of a hundred, with the default colors. *)
Lemma X9_color_between_example :
  uniform alternating /\ (0 < radius (defaults 100))%R /\
  (2 < count (defaults 100))%nat /\
  exists cr cg cb : R,
    slots (colors (fst (generate alternating hexColor (defaults 100) 0))) 6
    = [fround cr; fround cg; fround cb]
    /\ (Rmin (r (hexColor "#ff6030")) (r (hexColor "#1b3984")) <= cr
        <= Rmax (r (hexColor "#ff6030")) (r (hexColor "#1b3984")))%R
    /\ (Rmin (g (hexColor "#ff6030")) (g (hexColor "#1b3984")) <= cg
        <= Rmax (g (hexColor "#ff6030")) (g (hexColor "#1b3984")))%R
    /\ (Rmin (b (hexColor "#ff6030")) (b (hexColor "#1b3984")) <= cb
        <= Rmax (b (hexColor "#ff6030")) (b (hexColor "#1b3984")))%R
    /\ (fround (Rmin (r (hexColor "#ff6030")) (r (hexColor "#1b3984")))
        <= fround cr
        <= fround (Rmax (r (hexColor "#ff6030")) (r (hexColor "#1b3984"))))%R
    /\ (fround (Rmin (g (hexColor "#ff6030")) (g (hexColor "#1b3984")))
        <= fround cg
        <= fround (Rmax (g (hexColor "#ff6030")) (g (hexColor "#1b3984"))))%R
    /\ (fround (Rmin (b (hexColor "#ff6030")) (b (hexColor "#1b3984")))
        <= fround cb
        <= fround (Rmax (b (hexColor "#ff6030")) (b (hexColor "#1b3984"))))%R.
Proof.
  assert (Hr : (0 < radius (defaults 100))%R) by (cbn; lra).
  split; [exact alternating_uniform|]. split; [exact Hr|].
  split; [cbn; lia|].
  exact (X9_color_between alternating hexColor (defaults 100) 0 2
           alternating_uniform Hr ltac:(cbn; lia)).
Defined.

(** X10 with the three default branches, for the stars 4 and 7. *)
Lemma X10_branch_angles_example :
  (1 <= branches (defaults 100))%nat /\
  (0 <= branchAngle (defaults 100) 4 < 2 * PI)%R /\
  (branchAngle (defaults 100) 4 = branchAngle (defaults 100) 7 <->
   (4 mod branches (defaults 100) = 7 mod branches (defaults 100))%nat).
Proof.
  assert (Hb : (1 <= branches (defaults 100))%nat) by (cbn; lia).
  split; [exact Hb|].
  exact (X10_branch_angles (defaults 100) 4 7 Hb).
Defined.

Lemma alternating64_uniform : uniform64 alternating64.
Proof. intros k. unfold alternating64. now destruct (Nat.even k). Qed.

Lemma cube_alternating64 (y : float) (k : nat) :
  PrimFloat.is_finite (cube (alternating64 k) y) = true.
Proof. unfold alternating64. now destruct (Nat.even k). Qed.

(** In binary64, with the default parameters and a first draw that is 0, the
    fraction is 0 and the three color slots hold the inside color, converted
    to single precision. *)
Example binary64_inside_color :
  slots (colors (fst (generate (JS := Binary64 series_cos series_sin cube)
                        (fun _ : nat => 0%float) defaultColor64
                        (defaults64 1) 0))) 0
  = map float32 (channels (defaultColor64 "#ff6030")).
Proof. vm_compute. reflexivity. Qed.

(** C6 at the second particle, with the default size, power and colors: its
    jitter terms are zeros, its angle is [Math.PI] and its slots are
    [cos(Math.PI) * radius_i], a zero and [sin(Math.PI) * radius_i], converted
    to single precision. *)
Lemma C6_scenario_example :
  uniform64 alternating64 /\
  (forall k : nat,
     PrimFloat.is_finite (cube (alternating64 k) 3) = true) /\
  (1 < 4)%nat /\
  PrimFloat.is_zero
    (randomYAt (JS := Binary64 series_cos series_sin cube) alternating64
       (scenario64 (1 / 100) 3 "#ff6030" "#1b3984") (firstDraw 0 1)) = true /\
  branchAngle (JS := Binary64 series_cos series_sin cube)
    (scenario64 (1 / 100) 3 "#ff6030" "#1b3984") 1
  = 0x1.921fb54442d18p+1%float.
Proof.
  assert (Hi : (1 < 4)%nat) by lia.
  split; [exact alternating64_uniform|].
  split; [exact (cube_alternating64 3)|]. split; [exact Hi|].
  pose proof (C6_scenario series_cos series_sin cube alternating64
                defaultColor64 (1 / 100) 3 "#ff6030" "#1b3984" 0
                alternating64_uniform (cube_alternating64 3) 1 Hi) as H.
  exact (conj (proj1 (proj2 H)) (proj1 (proj2 (proj2 (proj2 H))))).
Defined.

(** The scenario in binary64, with the series for the cosine and the sine: the
    four positions.  The sine of [Math.PI] is not zero, so that the particles
    1 and 3 are not exactly on the axis. *)
Example scenario64_positions :
  positions (fst (generate (JS := Binary64 series_cos series_sin cube)
                    alternating64 defaultColor64
                    (scenario64 (1 / 100) 3 "#ff6030" "#1b3984") 0))
  = map float32
      [ (series_cos 0 * 0.25)%float; 0%float; (series_sin 0 * 0.25)%float;
        (series_cos 0x1.921fb54442d18p+1 * 0.75)%float; (-0)%float;
        (series_sin 0x1.921fb54442d18p+1 * 0.75)%float;
        (series_cos 0 * 0.25)%float; 0%float; (series_sin 0 * 0.25)%float;
        (series_cos 0x1.921fb54442d18p+1 * 0.75)%float; (-0)%float;
        (series_sin 0x1.921fb54442d18p+1 * 0.75)%float ].
Proof. vm_compute. reflexivity. Qed.

(** X16 at the third star of a hundred, with the default radius 5. *)
Lemma X16_fraction_is_a_number_example :
  PrimFloat.is_nan (radius (defaults64 100)) = false /\
  PrimFloat.is_infinity (radius (defaults64 100)) = false /\
  PrimFloat.is_zero (radius (defaults64 100)) = false /\
  PrimFloat.is_nan (alternating64 (firstDraw 0 2)) = false /\
  PrimFloat.is_nan
    (fraction (JS := Binary64 series_cos series_sin cube) (defaults64 100)
       (radiusAt (JS := Binary64 series_cos series_sin cube) alternating64
          (defaults64 100) (firstDraw 0 2))) = false.
Proof.
  repeat (split; [reflexivity|]).
  exact (X16_fraction_is_a_number series_cos series_sin cube alternating64
           (defaults64 100) 0 2 eq_refl eq_refl eq_refl eq_refl).
Defined.

(** The pixel ratio in binary64: capped at 2, kept below, and NaN if the
    window gives NaN. *)
Example pixel_ratio_binary64 :
  map (fun dpr =>
         pixelRatio
           (resized_renderer (JS := Binary64 series_cos series_sin cube)
              (JM := Binary64_math) (mkWindow 1920%float 1080%float dpr)))
      [3%float; 1.5%float; nan]
  = [2%float; 1.5%float; nan].
Proof. reflexivity. Qed.
